(** * form-viber: the submission validator, the agent runner and the form
    documents

    These pieces of the repository are embedded here.

    - [Validator]: the validation loop of the submission route
      ([POST] of [api/forms/[formId]/submit]), which strips unknown keys from
      the submitted [data] object and accumulates error messages field by
      field.
    - [Agent]: [createAgent(definition, deps).run] of [lib/agentBuilder.ts],
      which optionally creates a sandbox, calls the Gemini executor, attaches
      metadata, reports to the observability client and stops the sandbox.
    - [Collaborators]: the sandbox manager of [lib/daytonaManager.ts] and
      the executor of [lib/geminiExecutor.ts], which the routes hand to the
      runner.
    - [Firestore]: [removeUndefined], [createForm], [validateFormData] and
      [getForm] of [lib/firestore.ts], with the field normalisation of the
      creation route ([POST] of [api/forms/create]). *)

From Stdlib Require Import QArith Ascii String.
From stdpp Require Import gmap strings list fin_maps pretty.

Open Scope string_scope.
Open Scope nat_scope.

(* ===================================================================== *)
(** * The submission validator *)
(* ===================================================================== *)

Module Validator.

(** ** Submitted values

    [request.json()] yields a JSON tree. *)

#[warnings="-register-all"]
Inductive Json :=
| JNull
| JBool (b : bool)
| JNum (x : Q)
| JStr (s : string)
| JArr (l : list Json)
| JObj (m : gmap string Json).

(** What a property read [o[k]] on an object of the tree can give:
    [undefined], a value of the tree or, found further up the prototype
    chain, a method of [Object.prototype] or [Array.prototype] or, under
    ["__proto__"], the prototype object itself. *)
Inductive Value :=
| Undefined
| Data (v : Json)
| Method (name : string)
| ObjectPrototype
| ArrayPrototype.

(** [typeof v]. *)
Definition typeof (v : Value) : string :=
  match v with
  | Undefined => "undefined"
  | Data JNull => "object"
  | Data (JBool _) => "boolean"
  | Data (JNum _) => "number"
  | Data (JStr _) => "string"
  | Data (JArr _) => "object"
  | Data (JObj _) => "object"
  | Method _ => "function"
  | ObjectPrototype => "object"
  | ArrayPrototype => "object"
  end.

(** The elements of an array: [Array.prototype] is itself an array, an
    empty one. *)
Definition elements (v : Value) : option (list Json) :=
  match v with
  | Data (JArr l) => Some l
  | ArrayPrototype => Some []
  | _ => None
  end.

(** [Array.isArray(v)]. *)
Definition isArray (v : Value) : bool :=
  match elements v with Some _ => true | None => false end.

(** [v === undefined || v === null || v === ""]. *)
Definition is_blank (v : Value) : bool :=
  match v with
  | Undefined => true
  | Data JNull => true
  | Data (JStr "") => true
  | _ => false
  end.

(** [v === undefined || v === null]. *)
Definition is_nullish (v : Value) : bool :=
  match v with Undefined => true | Data JNull => true | _ => false end.

(** [v === null]. *)
Definition is_null (v : Value) : bool :=
  match v with Data JNull => true | _ => false end.

(** [s === v] for a string [s]. *)
Definition strict_eq_string (s : string) (v : Value) : bool :=
  match v with
  | Data (JStr s') => bool_decide (s = s')
  | _ => false
  end.

(** Canonical array index of a property key: a decimal numeral without
    leading zeros. *)
Definition digit (c : ascii) : option N :=
  let n := N_of_ascii c in
  if ((48 <=? n) && (n <=? 57))%N then Some (n - 48)%N else None.

Fixpoint digits (s : string) (acc : N) : option N :=
  match s with
  | EmptyString => Some acc
  | String c s' =>
      match digit c with
      | Some d => digits s' (10 * acc + d)%N
      | None => None
      end
  end.

Definition array_index (k : string) : option N :=
  match k with
  | EmptyString => None
  | String "0"%char EmptyString => Some 0%N
  | String "0"%char _ => None
  | _ => digits k 0%N
  end.

(** The string-keyed methods of [Object.prototype]; its one other string
    key is the accessor ["__proto__"]. *)
Definition object_prototype : list string :=
  [ "constructor"; "hasOwnProperty"; "isPrototypeOf"; "propertyIsEnumerable";
    "toLocaleString"; "toString"; "valueOf";
    "__defineGetter__"; "__defineSetter__"; "__lookupGetter__"; "__lookupSetter__" ].

(** The string-keyed methods of [Array.prototype] (ECMAScript 2023); its
    [length] is hidden by the one every array has of its own. *)
Definition array_prototype : list string :=
  [ "at"; "concat"; "constructor"; "copyWithin"; "entries"; "every"; "fill";
    "filter"; "find"; "findIndex"; "findLast"; "findLastIndex"; "flat";
    "flatMap"; "forEach"; "includes"; "indexOf"; "join"; "keys"; "lastIndexOf";
    "map"; "pop"; "push"; "reduce"; "reduceRight"; "reverse"; "shift"; "slice";
    "some"; "sort"; "splice"; "toLocaleString"; "toReversed"; "toSorted";
    "toSpliced"; "toString"; "unshift"; "values"; "with" ].

(** [o[k]] for an object literal of the tree with own properties [m]: an
    own property first, then [Object.prototype]. *)
Definition get_object (m : gmap string Json) (k : string) : Value :=
  match m !! k with
  | Some v => Data v
  | None =>
      if bool_decide (k = "__proto__") then ObjectPrototype
      else if bool_decide (k ∈ object_prototype) then Method k
      else Undefined
  end.

(** [o[k]] for an array of the tree with elements [l]: [length] and the
    elements are its own, then come [Array.prototype] and
    [Object.prototype]. *)
Definition get_array (l : list Json) (k : string) : Value :=
  if bool_decide (k = "length") then Data (JNum (inject_Z (Z.of_nat (length l))))
  else
    match array_index k ≫= (λ n, l !! N.to_nat n) with
    | Some v => Data v
    | None =>
        if bool_decide (k = "__proto__") then ArrayPrototype
        else if bool_decide (k ∈ (array_prototype ++ object_prototype)%list) then Method k
        else Undefined
    end.

(** [o[k]]. The validator reads properties of objects and arrays only. *)
Definition get (o : Json) (k : string) : Value :=
  match o with
  | JObj m => get_object m k
  | JArr l => get_array l k
  | _ => Undefined
  end.

(** ** Field definitions ([FormField] of [lib/firestore.ts]) *)

Record FieldOption := { value : string; option_label : string }.

Inductive NestedType := ntext | ndate | ndropdown | ncheckbox.

Inductive FieldType := text | date | dropdown | checkbox | dynamic.

Module Nested.
Record t := {
  id : string;
  type : NestedType;
  label : string;
  required : option bool;
  placeholder : option string;
  options : option (list FieldOption)
}.
End Nested.

Module Field.
Record t := {
  id : string;
  type : FieldType;
  label : string;
  required : option bool;
  placeholder : option string;
  options : option (list FieldOption);
  order : Z;
  fields : option (list Nested.t)
}.
End Field.

(** Truthiness of an optional boolean property ([if (field.required)]). *)
Definition truthy (b : option bool) : bool :=
  match b with Some true => true | _ => false end.

(** [options && !options.some(opt => opt.value === v)]: an options array,
    even an empty one, is truthy. *)
Definition not_an_option (options : option (list FieldOption)) (v : Value) : bool :=
  match options with
  | Some opts => negb (existsb (fun opt => strict_eq_string (value opt) v) opts)
  | None => false
  end.

(** [errors.push(msg)]. *)
Definition push (errors : list string) (msg : string) : list string :=
  errors ++ [msg].

(** The entry number shown to the user, [${i + 1}]. *)
Definition entry_no (i : nat) : string := pretty (i + 1).

(** ** The nested loop (lines 64-101) *)

(** The [switch (nestedField.type)] on a value known to be non-blank. *)
Definition check_nested_type (field : Field.t) (nestedField : Nested.t) (i : nat)
    (nestedValue : Value) (errors : list string) : list string :=
  let who := Field.label field ++ " - " ++ Nested.label nestedField in
  match Nested.type nestedField with
  | ncheckbox =>
      if negb (bool_decide (typeof nestedValue = "boolean"))
      then push errors (who ++ " must be a boolean for entry " ++ entry_no i)
      else errors
  | ntext =>
      if negb (bool_decide (typeof nestedValue = "string"))
      then push errors (who ++ " must be a string for entry " ++ entry_no i)
      else errors
  | ndate =>
      if negb (bool_decide (typeof nestedValue = "string"))
      then push errors (who ++ " must be a date string for entry " ++ entry_no i)
      else errors
  | ndropdown =>
      if negb (bool_decide (typeof nestedValue = "string"))
      then push errors (who ++ " must be a string for entry " ++ entry_no i)
      else if not_an_option (Nested.options nestedField) nestedValue
      then push errors (who ++ " must be one of the allowed options for entry " ++ entry_no i)
      else errors
  end.

(** One iteration of [for (const nestedField of field.fields)]. *)
Definition check_nested_field (field : Field.t) (i : nat) (entry : Json)
    (errors : list string) (nestedField : Nested.t) : list string :=
  let nestedValue := get entry (Nested.id nestedField) in
  if truthy (Nested.required nestedField) && is_blank nestedValue
  then (* push, then continue *)
    push errors (Field.label field ++ " - " ++ Nested.label nestedField
                 ++ " is required for entry " ++ entry_no i)
  else if negb (is_blank nestedValue)
  then check_nested_type field nestedField i nestedValue errors
  else errors.

(** One iteration of [for (let i = 0; i < value.length; i++)]. *)
Definition check_entry (field : Field.t) (nested : list Nested.t) (i : nat)
    (entry : Json) (errors : list string) : list string :=
  if negb (bool_decide (typeof (Data entry) = "object")) || is_null (Data entry)
  then push errors (Field.label field ++ " entry " ++ entry_no i ++ " must be an object")
  else fold_left (check_nested_field field i entry) nested errors.

Fixpoint check_entries (field : Field.t) (nested : list Nested.t) (i : nat)
    (value : list Json) (errors : list string) : list string :=
  match value with
  | [] => errors
  | entry :: rest =>
      check_entries field nested (S i) rest (check_entry field nested i entry errors)
  end.

(** ** The loop over [form.fields] (lines 43-144) *)

(** The [switch (field.type)] on a value known to be non-blank; a dynamic
    field never reaches it. *)
Definition check_type (field : Field.t) (value : Value)
    (errors : list string) : list string :=
  match Field.type field with
  | checkbox =>
      if negb (bool_decide (typeof value = "boolean"))
      then push errors (Field.label field ++ " must be a boolean")
      else errors
  | text =>
      if negb (bool_decide (typeof value = "string"))
      then push errors (Field.label field ++ " must be a string")
      else errors
  | date =>
      if negb (bool_decide (typeof value = "string"))
      then push errors (Field.label field ++ " must be a date string")
      else errors
  | dropdown =>
      if negb (bool_decide (typeof value = "string"))
      then push errors (Field.label field ++ " must be a string")
      else if not_an_option (Field.options field) value
      then push errors (Field.label field ++ " must be one of the allowed options")
      else errors
  | dynamic => errors
  end.

(** The body of the [if (field.type === "dynamic")] block. *)
Definition check_dynamic (field : Field.t) (value : Value)
    (errors : list string) : list string :=
  if truthy (Field.required field)
     && (negb (isArray value)
         || match elements value with
            | Some l => bool_decide (length l = 0)
            | None => false
            end)
  then (* push, then continue *)
    push errors (Field.label field ++ " is required")
  else
    match elements value, Field.fields field with
    | Some l, Some nested => check_entries field nested 0 l errors
    | _, _ =>
        if negb (is_nullish value) && negb (isArray value)
        then push errors (Field.label field ++ " must be an array")
        else errors
    end.

(** One iteration of [for (const field of form.fields)]. *)
Definition check_field (data : gmap string Json) (errors : list string)
    (field : Field.t) : list string :=
  let value := get_object data (Field.id field) in
  match Field.type field with
  | dynamic => check_dynamic field value errors
  | _ =>
      if truthy (Field.required field) && is_blank value
      then (* push, then continue *)
        push errors (Field.label field ++ " is required")
      else if negb (is_blank value)
      then check_type field value errors
      else errors
  end.

(** ** Stripping of unknown keys (lines 31-40) *)

Definition fieldIds (fields : list Field.t) : gset string :=
  list_to_set (Field.id <$> fields).

(** [Object.keys(data)]; the validator does not depend on their order. *)
Definition keys (data : gmap string Json) : list string :=
  (map_to_list data).*1.

Definition strip_key (ids : gset string) (data : gmap string Json)
    (key : string) : gmap string Json :=
  if negb (bool_decide (key ∈ ids)) then delete key data else data.

Definition strip_unknown (fields : list Field.t)
    (data : gmap string Json) : gmap string Json :=
  fold_left (strip_key (fieldIds fields)) (keys data) data.

(** ** The validation part of the handler

    The handler first answers 400 unless [data] is a non-null object, and
    404 unless the form exists. What follows is the rest, for [data] the
    submitted value tree, an object keyed by field id: the handler strips
    it in place and then reads the field values from it, with [data[id]],
    which looks for [id] in [data] and then in [Object.prototype]. *)
Definition validate (fields : list Field.t)
    (data : gmap string Json) : gmap string Json * list string :=
  let data := strip_unknown fields data in
  (data, fold_left (check_field data) fields []).

(** What the handler does after validation: answer 400 with the errors, or
    hand [data] to [saveFormResult]. *)
Inductive Outcome :=
| ValidationFailed (errors : list string)
| Saved (data : gmap string Json).

Definition submit (fields : list Field.t) (data : gmap string Json) : Outcome :=
  let '(data, errors) := validate fields data in
  if bool_decide (0 < length errors) then ValidationFailed errors else Saved data.

(** The messages one field adds to the error list. *)
Definition field_errors (data : gmap string Json) (field : Field.t) : list string :=
  check_field data [] field.

(** The messages one child field adds for one entry. *)
Definition nested_errors (field : Field.t) (i : nat) (entry : Json)
    (nestedField : Nested.t) : list string :=
  check_nested_field field i entry [] nestedField.

(** The messages one entry of a group adds. *)
Definition entry_errors (field : Field.t) (nested : list Nested.t) (i : nat)
    (entry : Json) : list string :=
  check_entry field nested i entry [].

End Validator.

(* ===================================================================== *)
(** * The agent runner *)
(* ===================================================================== *)

Module Agent.

(** ** Objects and the world

    [run] receives, derives and updates JavaScript objects that its
    collaborators see too, so objects live in a store and are passed around
    by reference. *)

Definition loc := positive.

Inductive val :=
| VUndefined
| VNull
| VBool (b : bool)
| VNum (x : Q)
| VStr (s : string)
| VRef (l : loc).

(** What a collaborator can observe and change while [run] awaits it: the
    object store, and the wall clock read by [Date.now()]. *)
Record World := {
  heap : gmap loc (gmap string val);
  clock : Z
}.

(** A thrown value: an [Error] with its message, or anything else. *)
Inductive exn :=
| Error (message : string)
| Thrown (v : val).

(** An awaited call: it settles with a value or a thrown one, and leaves
    the world as it pleases. *)
Definition action (A : Type) : Type := World → (exn + A) * World.

(** The properties of the object at [l]. *)
Definition props (h : gmap loc (gmap string val)) (l : loc) : gmap string val :=
  default ∅ (h !! l).

(** [o.k]. *)
Definition get (h : gmap loc (gmap string val)) (l : loc) (k : string) : val :=
  default VUndefined (props h l !! k).

(** The properties copied by [{...(v ?? {})}] for [v] an object, [undefined]
    or [null], which is what the types of [context] and [metadata] allow. *)
Definition spread (h : gmap loc (gmap string val)) (v : val) : gmap string val :=
  match v with
  | VRef l => props h l
  | _ => ∅
  end.

(** ** The interfaces of [agentBuilder.ts] *)

Record SandboxConfig := {
  cpu : option Q;
  memoryGb : option Q;
  diskGb : option Q;
  autoStopMinutes : option Q;
  ephemeral : option bool
}.

Record AgentDefinition := {
  systemPrompt : string;
  requiresSandbox : option bool;
  sandboxConfig : option SandboxConfig
}.

(** The handle returned by [createSandbox]. *)
Record Sandbox := { id : string }.

(** The argument of [trackAgentCall]. *)
Module Track.
Record t := {
  definition : AgentDefinition;
  input : loc;
  output : option loc;
  error : option exn;
  durationMs : Z;
  sandboxId : option string
}.
End Track.

Record GeminiExecutor := {
  gemini_run : string → loc → action loc
}.

Record DaytonaSandboxManager := {
  createSandbox : option SandboxConfig → action Sandbox;
  stopSandbox : string → action unit
}.

Record ObservabilityClient := {
  trackAgentCall : Track.t → action unit
}.

Record AgentDeps := {
  gemini : GeminiExecutor;
  daytona : option DaytonaSandboxManager;
  observability : option ObservabilityClient
}.

(** The calls [run] makes to its collaborators, in order. *)
Inductive Event :=
| CreateSandbox (config : option SandboxConfig)
| GeminiRun (systemPrompt : string) (input : loc)
| TrackAgentCall (params : Track.t)
| StopSandbox (sandboxId : string).

(** ** The body of [run] as a computation

    The state threads the world, the log of collaborator calls, and the two
    locals that [run] assigns inside [try] and reads in [catch] and
    [finally]: [sandboxId] and the parameter [input]. *)

Record Frame := {
  world : World;
  calls : list Event;
  sandboxId : option string;
  input : loc
}.

Definition M (A : Type) : Type := Frame → (exn + A) * Frame.

Definition ret {A} (a : A) : M A := λ s, (inr a, s).

Definition bind {A B} (m : M A) (k : A → M B) : M B :=
  λ s, match m s with
       | (inl e, s') => (inl e, s')
       | (inr a, s') => k a s'
       end.

Definition throw {A} (e : exn) : M A := λ s, (inl e, s).

(** [try { body } catch (error) { handler error }]. *)
Definition try_catch {A} (body : M A) (handler : exn → M A) : M A :=
  λ s, match body s with
       | (inl e, s') => handler e s'
       | (inr a, s') => (inr a, s')
       end.

(** [try { body } finally { cleanup }]: the cleanup runs on both exits and
    the completion of [body] stands unless the cleanup itself throws. *)
Definition try_finally {A} (body : M A) (cleanup : M unit) : M A :=
  λ s, match body s with
       | (r, s') =>
           match cleanup s' with
           | (inl e, s'') => (inl e, s'')
           | (inr _, s'') => (r, s'')
           end
       end.

Declare Scope run_scope.
Delimit Scope run_scope with run.
Notation "x <- m ;; k" := (bind m (λ x, k))
  (at level 100, m at next level, right associativity) : run_scope.
Notation "m ;; k" := (bind m (λ _, k))
  (at level 100, right associativity) : run_scope.

Definition get_sandboxId : M (option string) := λ s, (inr (sandboxId s), s).

Definition set_sandboxId (v : option string) : M unit :=
  λ s, (inr (), {| world := world s; calls := calls s;
                   sandboxId := v; input := input s |}).

Definition get_input : M loc := λ s, (inr (input s), s).

Definition set_input (l : loc) : M unit :=
  λ s, (inr (), {| world := world s; calls := calls s;
                   sandboxId := sandboxId s; input := l |}).

Definition set_world (w : World) (s : Frame) : Frame :=
  {| world := w; calls := calls s; sandboxId := sandboxId s; input := input s |}.

(** [Date.now()]. *)
Definition date_now : M Z := λ s, (inr (clock (world s)), s).

(** [await] of a collaborator call, logged. *)
Definition call {A} (ev : Event) (a : action A) : M A :=
  λ s, match a (world s) with
       | (r, w') =>
           (r, {| world := w'; calls := calls s ++ [ev];
                  sandboxId := sandboxId s; input := input s |})
       end.

(** An object literal: a new object in the store. *)
Definition alloc (o : gmap string val) (w : World) : loc * World :=
  let l := fresh (dom (heap w)) in
  (l, {| heap := <[l := o]> (heap w); clock := clock w |}).

(** [o.k = v]. *)
Definition assign (l : loc) (k : string) (v : val) (w : World) : World :=
  {| heap := <[l := <[k := v]> (props (heap w) l)]> (heap w); clock := clock w |}.

(** What [{ ...(input.context ?? {}) }] copies. *)
Definition context_of (w : World) (input : loc) : gmap string val :=
  spread (heap w) (get (heap w) input "context").

(** [{ ...input, context: { ...(input.context ?? {}), sandboxId } }]
    (lines 708-714). *)
Definition enrich (input : loc) (sandboxId : string) (w : World) : loc * World :=
  let context := context_of w input in
  let '(c, w1) := alloc (<["sandboxId" := VStr sandboxId]> context) w in
  alloc (<["context" := VRef c]> (props (heap w) input)) w1.

(** The value of the local [sandboxId : string | undefined]. *)
Definition of_optional (v : option string) : val :=
  match v with Some s => VStr s | None => VUndefined end.

(** What [{ ...(output.metadata ?? {}) }] copies. *)
Definition metadata_of (w : World) (output : loc) : gmap string val :=
  spread (heap w) (get (heap w) output "metadata").

(** [output.metadata = { ...(output.metadata ?? {}), durationMs, sandboxId }]
    (lines 729-733). *)
Definition attach_metadata (output : loc) (durationMs : Z)
    (sandboxId : option string) (w : World) : World :=
  let metadata := metadata_of w output in
  let '(m, w1) :=
    alloc (<["sandboxId" := of_optional sandboxId]>
             (<["durationMs" := VNum (inject_Z durationMs)]> metadata)) w in
  assign output "metadata" (VRef m) w1.

(** A pure step on the world. *)
Definition step {A} (f : World → A * World) : M A :=
  λ s, match f (world s) with (a, w') => (inr a, set_world w' s) end.

(** Truthiness of [requiresSandbox?: boolean]. *)
Definition truthy (b : option bool) : bool :=
  match b with Some true => true | _ => false end.

Definition no_manager : exn :=
  Error "Agent requires a sandbox, but no DaytonaSandboxManager was provided.".

Section Run.
Variable definition : AgentDefinition.
Variable deps : AgentDeps.

Open Scope run_scope.

(** The [try] block (lines 695-746). *)
Definition run_try (start : Z) : M loc :=
  (if truthy (requiresSandbox definition) then
     match daytona deps with
     | None => throw no_manager
     | Some daytona =>
         sandbox <- call (CreateSandbox (sandboxConfig definition))
                         (createSandbox daytona (sandboxConfig definition)) ;;
         set_sandboxId (Some (id sandbox)) ;;
         input <- get_input ;;
         input' <- step (enrich input (id sandbox)) ;;
         set_input input'
     end
   else ret ()) ;;
  input <- get_input ;;
  output <- call (GeminiRun (systemPrompt definition) input)
                 (gemini_run (gemini deps) (systemPrompt definition) input) ;;
  now <- date_now ;;
  let durationMs := (now - start)%Z in
  sandboxId <- get_sandboxId ;;
  step (λ w, ((), attach_metadata output durationMs sandboxId w)) ;;
  match observability deps with
  | Some observability =>
      let params :=
        {| Track.definition := definition; Track.input := input;
           Track.output := Some output; Track.error := None;
           Track.durationMs := durationMs; Track.sandboxId := sandboxId |} in
      call (TrackAgentCall params) (trackAgentCall observability params)
  | None => ret ()
  end ;;
  ret output.

(** The [catch (error)] block (lines 747-765). *)
Definition run_catch (start : Z) (error : exn) : M loc :=
  now <- date_now ;;
  let durationMs := (now - start)%Z in
  match observability deps with
  | Some observability =>
      input <- get_input ;;
      sandboxId <- get_sandboxId ;;
      let params :=
        {| Track.definition := definition; Track.input := input;
           Track.output := None; Track.error := Some error;
           Track.durationMs := durationMs; Track.sandboxId := sandboxId |} in
      try_catch (call (TrackAgentCall params) (trackAgentCall observability params))
                (λ _, ret ())
  | None => ret ()
  end ;;
  throw error.

(** The [finally] block (lines 766-775); [sandboxId && daytona] is falsy
    for the empty string as well as for [undefined]. *)
Definition run_finally : M unit :=
  sandboxId <- get_sandboxId ;;
  match sandboxId, daytona deps with
  | Some sandboxId, Some daytona =>
      if bool_decide (sandboxId = "") then ret ()
      else try_catch (call (StopSandbox sandboxId) (stopSandbox daytona sandboxId))
                     (λ _, ret ())
  | _, _ => ret ()
  end.

Definition run_body : M loc :=
  start <- date_now ;;
  try_finally (try_catch (run_try start) (run_catch start)) run_finally.

(** [run(input)]: what the caller gets, the world it is left with, and
    the collaborator calls made. *)
Definition run (input : loc) (w : World) : (exn + loc) * Frame :=
  run_body {| world := w; calls := []; sandboxId := None; input := input |}.

End Run.

(** The calls of a log that stop a sandbox, reach the executor, or reach
    the observability client. *)
Definition is_stop (ev : Event) : bool :=
  match ev with StopSandbox _ => true | _ => false end.

Definition is_gemini (ev : Event) : bool :=
  match ev with GeminiRun _ _ => true | _ => false end.

Definition is_track (ev : Event) : bool :=
  match ev with TrackAgentCall _ => true | _ => false end.

(** The call made to the observability client when a run fails. *)
Definition failure_report (definition : AgentDefinition) (input : loc)
    (error : exn) (durationMs : Z) (sandboxId : option string) : Event :=
  TrackAgentCall
    {| Track.definition := definition; Track.input := input;
       Track.output := None; Track.error := Some error;
       Track.durationMs := durationMs; Track.sandboxId := sandboxId |}.

(** The call made to the observability client when a run succeeds. *)
Definition success_report (definition : AgentDefinition) (input output : loc)
    (durationMs : Z) (sandboxId : option string) : Event :=
  TrackAgentCall
    {| Track.definition := definition; Track.input := input;
       Track.output := Some output; Track.error := None;
       Track.durationMs := durationMs; Track.sandboxId := sandboxId |}.

(** A call that reaches the observability client only if there is one. *)
Definition reported (deps : AgentDeps) (ev : Event) : list Event :=
  match observability deps with Some _ => [ev] | None => [] end.

(** A collaborator call that creates objects at most: every object of the
    store is left as it was. *)
Definition allocating {A} (a : action A) : Prop :=
  ∀ w, heap w ⊆ heap (a w).2.

(** Collaborators that never modify an existing object. *)
Record allocating_deps (deps : AgentDeps) : Prop := {
  gemini_allocating : ∀ prompt input,
    allocating (gemini_run (gemini deps) prompt input);
  create_allocating : ∀ d config,
    daytona deps = Some d → allocating (createSandbox d config);
  stop_allocating : ∀ d sandboxId,
    daytona deps = Some d → allocating (stopSandbox d sandboxId);
  track_allocating : ∀ o params,
    observability deps = Some o → allocating (trackAgentCall o params)
}.

(** The object at [l], if there is one in [w], is the same in [w']. *)
Definition keeps (l : loc) (w w' : World) : Prop :=
  ∀ o, heap w !! l = Some o → heap w' !! l = Some o.

(** A computation that leaves the object at [l] alone. *)
Definition keepsM {A} (l : loc) (m : M A) : Prop :=
  ∀ s, keeps l (world s) (world (m s).2).

End Agent.

(** ** Sample forms and submissions *)

Module ValidatorExamples.
Import Validator.

Definition email : Nested.t :=
  {| Nested.id := "email"; Nested.type := ntext; Nested.label := "Email";
     Nested.required := Some true; Nested.placeholder := None;
     Nested.options := None |}.

Definition age : Nested.t :=
  {| Nested.id := "adult"; Nested.type := ncheckbox; Nested.label := "Adult";
     Nested.required := Some false; Nested.placeholder := None;
     Nested.options := None |}.

(** A required group. *)
Definition members : Field.t :=
  {| Field.id := "members"; Field.type := dynamic; Field.label := "Members";
     Field.required := Some true; Field.placeholder := None;
     Field.options := None; Field.order := 1;
     Field.fields := Some [email; age] |}.

(** An optional group. *)
Definition guests : Field.t :=
  {| Field.id := "guests"; Field.type := dynamic; Field.label := "Guests";
     Field.required := Some false; Field.placeholder := None;
     Field.options := None; Field.order := 2;
     Field.fields := Some [email; age] |}.

(** A required checkbox. *)
Definition terms : Field.t :=
  {| Field.id := "terms"; Field.type := checkbox; Field.label := "Terms";
     Field.required := Some true; Field.placeholder := None;
     Field.options := None; Field.order := 3; Field.fields := None |}.

(** [{ members: "everyone" }] *)
Definition members_as_string : gmap string Json :=
  {[ "members" := JStr "everyone" ]}.

(** [{ guests: "everyone" }] *)
Definition guests_as_string : gmap string Json :=
  {[ "guests" := JStr "everyone" ]}.

(** [{ members: [] }] *)
Definition members_empty : gmap string Json :=
  {[ "members" := JArr [] ]}.

(** [{ members: [{ adult: 1 }] }] *)
Definition members_one_entry : gmap string Json :=
  {[ "members" := JArr [JObj {[ "adult" := JNum 1 ]}] ]}.

(** [{ members: [{ email: "a@b.c", nickname: "al" }] }] *)
Definition members_with_nickname : gmap string Json :=
  {[ "members" := JArr [JObj {[ "email" := JStr "a@b.c"; "nickname" := JStr "al" ]}] ]}.

(** [{ terms: false, extra: "x" }] *)
Definition terms_false : gmap string Json :=
  {[ "terms" := JBool false; "extra" := JStr "x" ]}.

End ValidatorExamples.

(** ** Sample collaborators and worlds *)

Module AgentExamples.
Import Agent.

(** The caller's input [{ text: "hi", context: { user: "ann" } }], at
    location 1 with its context at location 2. *)
Definition world0 : World :=
  {| heap := {[ 1%positive := {[ "text" := VStr "hi"; "context" := VRef 2%positive ]};
                2%positive := {[ "user" := VStr "ann" ]} ]};
     clock := 1000 |}.

Definition tick (ms : Z) (w : World) : World :=
  {| heap := heap w; clock := (clock w + ms)%Z |}.

(** An executor that answers
    [{ text: "ok", metadata: { model: "g", sandboxId: "mine" } }]. *)
Definition gemini_ok : GeminiExecutor :=
  {| gemini_run := λ _ _ w,
       let '(m, w1) := alloc {[ "model" := VStr "g"; "sandboxId" := VStr "mine" ]} w in
       let '(o, w2) := alloc {[ "text" := VStr "ok"; "metadata" := VRef m ]} w1 in
       (inr o, tick 40 w2) |}.

Definition gemini_down : GeminiExecutor :=
  {| gemini_run := λ _ _ w, (inl (Error "Gemini API error: boom"), tick 40 w) |}.

Definition daytona_ok (sandbox : string) : DaytonaSandboxManager :=
  {| createSandbox := λ _ w, (inr {| id := sandbox |}, tick 5 w);
     stopSandbox := λ _ w, (inr (), tick 5 w) |}.

(** A manager whose [stopSandbox] rejects. *)
Definition daytona_sticky (sandbox : string) : DaytonaSandboxManager :=
  {| createSandbox := λ _ w, (inr {| id := sandbox |}, tick 5 w);
     stopSandbox := λ _ w, (inl (Error "cannot stop"), tick 5 w) |}.

Definition daytona_full : DaytonaSandboxManager :=
  {| createSandbox := λ _ w, (inl (Error "no capacity"), tick 5 w);
     stopSandbox := λ _ w, (inr (), tick 5 w) |}.

Definition sink_ok : ObservabilityClient :=
  {| trackAgentCall := λ _ w, (inr (), tick 1 w) |}.

Definition sink_down : ObservabilityClient :=
  {| trackAgentCall := λ _ w, (inl (Error "sink down"), tick 1 w) |}.

(** Everything works; the sandbox is "sb-1". *)
Definition working_deps : AgentDeps :=
  {| gemini := gemini_ok; daytona := Some (daytona_ok "sb-1");
     observability := Some sink_ok |}.

(** No sandbox manager, and an observability client that throws. *)
Definition unmanaged_deps : AgentDeps :=
  {| gemini := gemini_ok; daytona := None; observability := Some sink_down |}.

(** [createSandbox] throws. *)
Definition full_deps : AgentDeps :=
  {| gemini := gemini_ok; daytona := Some daytona_full;
     observability := Some sink_ok |}.

(** The executor, the observability client and [stopSandbox] all throw. *)
Definition failing_deps : AgentDeps :=
  {| gemini := gemini_down; daytona := Some (daytona_sticky "sb-1");
     observability := Some sink_down |}.

(** The sandbox handle has the empty id, and the executor throws. *)
Definition empty_id_deps : AgentDeps :=
  {| gemini := gemini_down; daytona := Some (daytona_ok "");
     observability := None |}.

Definition plain : AgentDefinition :=
  {| systemPrompt := "You are a helpful assistant.";
     requiresSandbox := None; sandboxConfig := None |}.

Definition sandboxed : AgentDefinition :=
  {| systemPrompt := "You are a Form Generator Agent.";
     requiresSandbox := Some true; sandboxConfig := None |}.

End AgentExamples.

(* ===================================================================== *)
(** * More on the agent runner *)
(* ===================================================================== *)

Module AgentCalls.
Import Agent.

(** The calls of a log that create a sandbox. *)
Definition is_create (ev : Event) : bool :=
  match ev with CreateSandbox _ => true | _ => false end.

(** The same collaborators with another [stopSandbox]. *)
Definition with_stop (deps : AgentDeps) (stop : string → action unit) : AgentDeps :=
  {| gemini := gemini deps;
     daytona :=
       match daytona deps with
       | Some d => Some {| createSandbox := createSandbox d; stopSandbox := stop |}
       | None => None
       end;
     observability := observability deps |}.

(** The error carried by a report to the observability client. *)
Definition reported_error (ev : Event) : option exn :=
  match ev with
  | TrackAgentCall params => Track.error params
  | _ => None
  end.

(** The output carried by a report to the observability client. *)
Definition reported_output (ev : Event) : option loc :=
  match ev with
  | TrackAgentCall params => Track.output params
  | _ => None
  end.

End AgentCalls.

(* ===================================================================== *)
(** * The collaborators shipped with the repository *)
(* ===================================================================== *)

Module Collaborators.
Import Agent.

(** ** [lib/daytonaManager.ts] *)

(** [createDaytonaManager()]. The id is
    [`sandbox-${Date.now()}-${Math.random().toString(36).substring(7)}`];
    [random] stands for the last part. [stopSandbox] only logs. *)
Definition createDaytonaManager (random : World → string) : DaytonaSandboxManager :=
  {| createSandbox := λ config w,
       let sandboxId := "sandbox-" ++ pretty (clock w) ++ "-" ++ random w in
       (inr {| id := sandboxId |}, w);
     stopSandbox := λ sandboxId w, (inr (), w) |}.

(** ** [lib/geminiExecutor.ts] *)

(** What the Google SDK offers to the executor. *)

(** [response.usageMetadata], when there is one. *)
Record UsageMetadata := {
  promptTokenCount : val;
  candidatesTokenCount : val
}.

(** The awaited [result.response]: the response object itself, its
    [text()] method and its [usageMetadata]. *)
Record GenerateContentResponse := {
  response : val;
  text : action string;
  usageMetadata : option UsageMetadata
}.

(** A generative model: [generateContent(prompt)] followed by
    [await result.response]. *)
Record GenerativeModel := {
  generateContent : string → action GenerateContentResponse
}.

(** [new GoogleGenerativeAI(key)]. *)
Record GoogleGenerativeAI := {
  getGenerativeModel : string → action GenerativeModel
}.

Definition newline : string := String (ascii_of_nat 10) EmptyString.

Section Executor.

(** [String(v)] for a value that is not a string. *)
Variable render : val → string.

(** [`${v}`] and [String(v)]. *)
Definition js_string (v : val) : string :=
  match v with
  | VStr s => s
  | _ => render v
  end.

(** [error instanceof Error ? error.message : String(error)]. *)
Definition error_message (error : exn) : string :=
  match error with
  | Error message => message
  | Thrown v => js_string v
  end.

(** [new Error(`Gemini API error: ${...}`)]. *)
Definition wrap (error : exn) : exn :=
  Error ("Gemini API error: " ++ error_message error).

(** The object literal returned on success (lines 822-837 of the file):
    [tokens] is an object when there is usage metadata and [undefined]
    otherwise. *)
Definition build_output (resp : GenerateContentResponse) (text : string)
    (w : World) : loc * World :=
  let '(tokens, w1) :=
    match usageMetadata resp with
    | Some usage =>
        let '(t, w1) := alloc {[ "input" := promptTokenCount usage;
                                 "output" := candidatesTokenCount usage ]} w in
        (VRef t, w1)
    | None => (VUndefined, w)
    end in
  let '(m, w2) := alloc {[ "tokens" := tokens ]} w1 in
  alloc {[ "text" := VStr text;
           "rawModelResponse" := response resp;
           "metadata" := VRef m ]} w2.

(** [`${systemPrompt}\n\nUser: ${input.text}\n\nAssistant:`], for [text]
    the value of [input.text]. *)
Definition build_prompt (systemPrompt : string) (text : val) : string :=
  systemPrompt ++ newline ++ newline ++ "User: " ++ js_string text
  ++ newline ++ newline ++ "Assistant:".

(** The [run] method of the executor. *)
Definition executor_run (genAI : GoogleGenerativeAI) (systemPrompt : string)
    (input : loc) : action loc :=
  λ w,
    match getGenerativeModel genAI "gemini-2.5-flash" w with
    | (inl e, w1) => (inl e, w1)
    | (inr model, w1) =>
        let prompt := build_prompt systemPrompt (get (heap w1) input "text") in
        (* try *)
        match generateContent model prompt w1 with
        | (inl e, w2) => (inl (wrap e), w2)
        | (inr resp, w2) =>
            match text resp w2 with
            | (inl e, w3) => (inl (wrap e), w3)
            | (inr text, w3) =>
                let '(output, w4) := build_output resp text w3 in
                (inr output, w4)
            end
        end
    end.

Definition no_api_key : exn :=
  Error "Gemini API key is required. Provide it as an argument or set GEMINI_API_KEY environment variable.".

(** [apiKey || process.env.GEMINI_API_KEY]: the empty string is falsy. *)
Definition first_truthy (a b : option string) : option string :=
  match a with
  | Some s => if bool_decide (s = "") then b else a
  | None => b
  end.

(** [createGeminiExecutor(apiKey?)], given the SDK's constructor and the
    environment variable. *)
Definition createGeminiExecutor
    (sdk : string → exn + GoogleGenerativeAI)
    (env_GEMINI_API_KEY : option string)
    (apiKey : option string) : exn + GeminiExecutor :=
  match first_truthy apiKey env_GEMINI_API_KEY with
  | Some key =>
      if bool_decide (key = "") then inl no_api_key
      else
        match sdk key with
        | inl e => inl e
        | inr genAI => inr {| gemini_run := executor_run genAI |}
        end
  | None => inl no_api_key
  end.

End Executor.

(** A Google SDK that allocates at most. *)
Definition allocating_model (model : GenerativeModel) : Prop :=
  ∀ prompt, allocating (generateContent model prompt)
  ∧ ∀ w resp w', generateContent model prompt w = (inr resp, w') →
      allocating (text resp).

Definition allocating_sdk (genAI : GoogleGenerativeAI) : Prop :=
  ∀ name, allocating (getGenerativeModel genAI name)
  ∧ ∀ w model w', getGenerativeModel genAI name w = (inr model, w') →
      allocating_model model.

End Collaborators.

(** ** A sample Google SDK *)

Module CollaboratorExamples.
Import Agent AgentExamples Collaborators.

(** [String(v)] for the few values the samples need. *)
Definition sample_render (v : val) : string :=
  match v with
  | VUndefined => "undefined"
  | VNull => "null"
  | VBool true => "true"
  | VBool false => "false"
  | _ => "[object Object]"
  end.

(** A response whose text is "hello", with usage metadata. *)
Definition sample_response : GenerateContentResponse :=
  {| response := VNull;
     text := λ w, (inr "hello", w);
     usageMetadata := Some {| promptTokenCount := VNum 3;
                              candidatesTokenCount := VNum 5 |} |}.

Definition sample_sdk : GoogleGenerativeAI :=
  {| getGenerativeModel := λ _ w,
       (inr {| generateContent := λ _ w', (inr sample_response, tick 30 w') |}, w) |}.

(** An SDK whose [generateContent] rejects with the string "quota". *)
Definition exhausted_sdk : GoogleGenerativeAI :=
  {| getGenerativeModel := λ _ w,
       (inr {| generateContent := λ _ w', (inl (Thrown (VStr "quota")), tick 30 w') |}, w) |}.

End CollaboratorExamples.

(** ** More sample fields and submissions *)

Module ValidatorMoreExamples.
Import Validator.

(** A required text field. *)
Definition name : Field.t :=
  {| Field.id := "name"; Field.type := text; Field.label := "Full Name";
     Field.required := Some true; Field.placeholder := None;
     Field.options := None; Field.order := 1; Field.fields := None |}.

(** An optional date field. *)
Definition birthdate : Field.t :=
  {| Field.id := "birthdate"; Field.type := date; Field.label := "Date of Birth";
     Field.required := Some false; Field.placeholder := None;
     Field.options := None; Field.order := 2; Field.fields := None |}.

(** An optional dropdown with two options. *)
Definition country : Field.t :=
  {| Field.id := "country"; Field.type := dropdown; Field.label := "Country";
     Field.required := None; Field.placeholder := None;
     Field.options := Some [ {| value := "nl"; option_label := "Netherlands" |};
                             {| value := "in"; option_label := "India" |} ];
     Field.order := 3; Field.fields := None |}.

(** An optional text field whose id is the name of a method of
    [Object.prototype]. *)
Definition title : Field.t :=
  {| Field.id := "toString"; Field.type := text; Field.label := "Title";
     Field.required := Some false; Field.placeholder := None;
     Field.options := None; Field.order := 4; Field.fields := None |}.

Definition person : list Field.t := [name; birthdate; country; title].

(** A required text child whose id is the name of a method of
    [Object.prototype]. *)
Definition worth : Nested.t :=
  {| Nested.id := "valueOf"; Nested.type := ntext; Nested.label := "Worth";
     Nested.required := Some true; Nested.placeholder := None;
     Nested.options := None |}.

(** [{ name: "" }] *)
Definition blank_name : gmap string Json := {[ "name" := JStr "" ]}.

(** [{ name: "Ann", birthdate: "soon", country: "in" }] *)
Definition ann : gmap string Json :=
  {[ "name" := JStr "Ann"; "birthdate" := JStr "soon"; "country" := JStr "in" ]}.

End ValidatorMoreExamples.

(* ===================================================================== *)
(** * Form documents: [lib/firestore.ts] and the create route *)
(* ===================================================================== *)

Module Firestore.

(** ** JavaScript values

    The values handled here are parsed JSON, object literals built from it,
    and [Timestamp] and [Date] instances. An object is the list of its own
    enumerable properties in the order of [Object.entries]; arrays have no
    holes. *)

Inductive Class := Plain | TimestampClass | DateClass.

#[warnings="-register-all"]
Inductive Js :=
| Undefined
| Null
| Bool (b : bool)
| Num (x : Q)
| Str (s : string)
| Arr (items : list Js)
| Obj (class : Class) (entries : list (string * Js)).

Definition typeof (v : Js) : string :=
  match v with
  | Undefined => "undefined"
  | Null => "object"
  | Bool _ => "boolean"
  | Num _ => "number"
  | Str _ => "string"
  | Arr _ => "object"
  | Obj _ _ => "object"
  end.

Definition isArray (v : Js) : bool :=
  match v with Arr _ => true | _ => false end.

(** Truthiness: [undefined], [null], [false], [0] and [""] are falsy. *)
Definition truthy (v : Js) : bool :=
  match v with
  | Undefined => false
  | Null => false
  | Bool b => b
  | Num x => negb (Qeq_bool x 0)
  | Str s => negb (bool_decide (s = ""))
  | Arr _ => true
  | Obj _ _ => true
  end.

(** [v ?? d]. *)
Definition nullish_or (v d : Js) : Js :=
  match v with
  | Undefined => d
  | Null => d
  | _ => v
  end.

(** [v === s] for a string [s]. *)
Definition is_string (s : string) (v : Js) : bool :=
  match v with
  | Str s' => bool_decide (s' = s)
  | _ => false
  end.

(** [list.includes(v)] for a list of strings. *)
Definition includes (l : list string) (v : Js) : bool :=
  match v with
  | Str s => bool_decide (s ∈ l)
  | _ => false
  end.

(** The value of the own property [k], [undefined] when there is none. *)
Fixpoint lookup_entry (k : string) (entries : list (string * Js)) : Js :=
  match entries with
  | [] => Undefined
  | (k', v) :: rest => if bool_decide (k = k') then v else lookup_entry k rest
  end.

(** [v.k]. Reading a property of [null] or [undefined] throws a TypeError,
    which is [None] here. The names this code reads ([id], [type], [fields],
    ...) are own properties of objects only, so other values give
    [undefined]. *)
Definition read (v : Js) (k : string) : option Js :=
  match v with
  | Undefined => None
  | Null => None
  | Obj _ entries => Some (lookup_entry k entries)
  | _ => Some Undefined
  end.

(** [v.k] for a [v] already known not to be [null] or [undefined]. *)
Definition get (v : Js) (k : string) : Js :=
  default Undefined (read v k).

(** ** [removeUndefined] (lines 43-59) *)

(** [Object.entries] of an array whose items have been through the loop
    body: [None] marks an item the loop skipped. *)
Fixpoint index_entries (i : nat) (values : list (option Js)) : list (string * Js) :=
  match values with
  | [] => []
  | Some v :: rest => (pretty i, v) :: index_entries (S i) rest
  | None :: rest => index_entries (S i) rest
  end.

(** [removeUndefined(obj)], as the entries of [cleaned]. It is called on
    objects, and from the [map] callback also on whatever has
    [typeof "object"]: arrays and class instances. *)
Fixpoint removeUndefined (obj : Js) : list (string * Js) :=
  let clean_item (item : Js) : Js :=
    match item with
    | Arr _ | Obj _ _ => Obj Plain (removeUndefined item)
    | _ => item
    end in
  let clean_value (value : Js) : option Js :=
    match value with
    | Undefined => None
    | Arr items => Some (Arr (map clean_item items))
    | Obj Plain _ => Some (Obj Plain (removeUndefined value))
    | _ => Some value
    end in
  match obj with
  | Obj _ entries =>
      omap (λ entry,
              match clean_value entry.2 with
              | Some v => Some (entry.1, v)
              | None => None
              end) entries
  | Arr items => index_entries 0 (map clean_value items)
  | _ => []
  end.

(** The [map] callback: [typeof item === "object" && item !== null ?
    removeUndefined(item) : item]. *)
Definition clean_item (item : Js) : Js :=
  match item with
  | Arr _ | Obj _ _ => Obj Plain (removeUndefined item)
  | _ => item
  end.

(** What the loop body assigns to [cleaned[key]], [None] when it skips
    the key. *)
Definition clean_value (value : Js) : option Js :=
  match value with
  | Undefined => None
  | Arr items => Some (Arr (map clean_item items))
  | Obj Plain _ => Some (Obj Plain (removeUndefined value))
  | _ => Some value
  end.

Definition clean_entry (entry : string * Js) : option (string * Js) :=
  match clean_value entry.2 with
  | Some v => Some (entry.1, v)
  | None => None
  end.

(** ** [validateFormData] (lines 84-134) *)

Definition field_types : list string :=
  ["text"; "date"; "dropdown"; "checkbox"; "dynamic"].

Definition nested_types : list string :=
  ["text"; "date"; "dropdown"; "checkbox"].

(** [Some true] to go on, [Some false] for [return false], [None] when a
    property read throws. *)
Definition valid_nested (nestedField : Js) : option bool :=
  id ← read nestedField "id";
  label ← read nestedField "label";
  type ← read nestedField "type";
  Some (negb (negb (bool_decide (typeof id = "string"))
              || negb (bool_decide (typeof label = "string"))
              || negb (includes nested_types type))).

(** A loop that returns [false] at the first item that fails. *)
Fixpoint all_valid (check : Js → option bool) (items : list Js) : option bool :=
  match items with
  | [] => Some true
  | item :: rest =>
      match check item with
      | Some true => all_valid check rest
      | other => other
      end
  end.

Definition valid_field (field : Js) : option bool :=
  id ← read field "id";
  label ← read field "label";
  order ← read field "order";
  type ← read field "type";
  if negb (bool_decide (typeof id = "string"))
     || negb (bool_decide (typeof label = "string"))
     || negb (bool_decide (typeof order = "number"))
     || negb (includes field_types type)
  then Some false
  else
    options ← read field "options";
    if truthy options && negb (isArray options) then Some false
    else if is_string "dynamic" type then
      fields ← read field "fields";
      match fields with
      | Arr nested => all_valid valid_nested nested
      | _ => Some false
      end
    else Some true.

Definition validateFormData (data : Js) : option bool :=
  if negb (truthy data) || negb (bool_decide (typeof data = "object")) then Some false
  else
    formId ← read data "formId";
    if negb (bool_decide (typeof formId = "string")) then Some false
    else
      fields ← read data "fields";
      match fields with
      | Arr items =>
          match all_valid valid_field items with
          | Some true =>
              createdAt ← read data "createdAt";
              updatedAt ← read data "updatedAt";
              Some (negb (negb (truthy createdAt) || negb (truthy updatedAt)))
          | other => other
          end
      | _ => Some false
      end.

(** ** The field normalisation of the create route (lines 130-173 of
    [api/forms/create/route.ts]) *)

(** The errors thrown while normalising, by template and arguments. *)
Inductive NormalizeError :=
| TypeError
| InvalidField (index : nat)
| InvalidFieldType (type : Js)
| MissingNestedFields (id : Js)
| InvalidNestedField (id : Js)
| InvalidNestedFieldType (id type : Js).

(** The callback of [field.fields.map], for the nested fields of the field
    whose id is [parent]. *)
Definition normalize_nested (parent : Js) (nestedField : Js) : NormalizeError + Js :=
  match read nestedField "id", read nestedField "type", read nestedField "label" with
  | Some id, Some type, Some label =>
      if negb (truthy id) || negb (truthy type) || negb (truthy label)
      then inl (InvalidNestedField parent)
      else if negb (includes nested_types type)
      then inl (InvalidNestedFieldType parent type)
      else
        inr (Obj Plain
               [ ("id", id); ("type", type); ("label", label);
                 ("required", nullish_or (get nestedField "required") (Bool false));
                 ("placeholder", get nestedField "placeholder");
                 ("options", get nestedField "options") ])
  | _, _, _ => inl TypeError
  end.

(** [items.map(f)] for a callback that may throw: the first throw ends it. *)
Fixpoint map_throwing {E} (f : nat → Js → E + Js) (index : nat) (items : list Js)
    : E + list Js :=
  match items with
  | [] => inr []
  | item :: rest =>
      match f index item with
      | inl e => inl e
      | inr v =>
          match map_throwing f (S index) rest with
          | inl e => inl e
          | inr vs => inr (v :: vs)
          end
      end
  end.

(** The callback of [formData.fields.map]. *)
Definition normalize_field (index : nat) (field : Js) : NormalizeError + Js :=
  match read field "id", read field "type", read field "label" with
  | Some id, Some type, Some label =>
      if negb (truthy id) || negb (truthy type) || negb (truthy label)
      then inl (InvalidField index)
      else if negb (includes field_types type)
      then inl (InvalidFieldType type)
      else
        let normalizedField :=
          [ ("id", id); ("type", type); ("label", label);
            ("required", nullish_or (get field "required") (Bool false));
            ("placeholder", get field "placeholder");
            ("options", get field "options");
            ("order", nullish_or (get field "order")
                                 (Num (inject_Z (Z.of_nat (index + 1))))) ] in
        if is_string "dynamic" type then
          match get field "fields" with
          | Arr nested =>
              match map_throwing (λ _, normalize_nested id) 0 nested with
              | inl e => inl e
              | inr nested' =>
                  inr (Obj Plain (normalizedField ++ [("fields", Arr nested')]))
              end
          | _ => inl (MissingNestedFields id)
          end
        else inr (Obj Plain normalizedField)
  | _, _, _ => inl TypeError
  end.

Definition normalize_fields (fields : list Js) : NormalizeError + list Js :=
  map_throwing normalize_field 0 fields.

(** ** [createForm] (lines 64-79) *)

(** The document handed to [setDoc]: [removeUndefined({ ...formData,
    createdAt: now, updatedAt: now })] for
    [formData = { formId, fields, title }]. *)
Definition form_document (formId : Js) (fields : list Js) (title : Js) (now : Js)
    : list (string * Js) :=
  removeUndefined
    (Obj Plain [ ("formId", formId); ("fields", Arr fields); ("title", title);
                 ("createdAt", now); ("updatedAt", now) ]).

(** ** [getForm] (lines 139-155), after the [formId] check: [doc] is what
    [getDoc] found, if anything. [None] is a thrown TypeError, [Some None]
    is [null]. *)
Definition getForm (doc : option Js) : option (option Js) :=
  match doc with
  | None => Some None
  | Some data =>
      match validateFormData data with
      | Some true => Some (Some data)
      | Some false => Some None
      | None => None
      end
  end.

(** [createForm(formData)] for [formData = { formId, fields, title }]: the
    document stored, unless the [formId] check throws. [trim] is
    [String.prototype.trim]. *)
Inductive SaveError :=
| InvalidStructure
| Thrown (e : NormalizeError)
| InvalidFormId.

Definition createForm (trim : string → string) (formId : Js) (fields : list Js)
    (title : Js) (now : Js) : SaveError + list (string * Js) :=
  match formId with
  | Str s =>
      if negb (truthy formId) || bool_decide (trim s = "") then inl InvalidFormId
      else inr (form_document formId fields title now)
  | _ => inl InvalidFormId
  end.

(** The create route from the parsed [formData] on (lines 121-180): the
    structure check, the normalisation and [createForm]. Every error ends
    in a 500 response; on success the document is stored. *)
Definition store_form (trim : string → string) (formData : Js) (now : Js)
    : SaveError + list (string * Js) :=
  match read formData "formId", read formData "fields" with
  | Some formId, Some (Arr fields) =>
      if negb (truthy formId) then inl InvalidStructure
      else
        match normalize_fields fields with
        | inl e => inl (Thrown e)
        | inr normalizedFields =>
            createForm trim formId normalizedFields (get formData "title") now
        end
  | Some _, Some _ => inl InvalidStructure
  | _, _ => inl (Thrown TypeError)
  end.

(** A document without gaps, as [removeUndefined] leaves it: no property
    is [undefined], and the objects inside arrays are plain objects, not
    arrays or class instances. *)
Fixpoint tidy (v : Js) : bool :=
  match v with
  | Undefined => false
  | Arr items =>
      forallb (λ item,
                 match item with
                 | Arr _ => false
                 | Obj Plain _ => tidy item
                 | Obj _ _ => false
                 | _ => true
                 end) items
  | Obj Plain entries => forallb (λ entry, tidy entry.2) entries
  | _ => true
  end.

Definition is_undefined (v : Js) : bool :=
  match v with Undefined => true | _ => false end.

(** What an array item must be for the array to be [tidy]. *)
Definition tidy_item (item : Js) : bool :=
  match item with
  | Arr _ => false
  | Obj Plain _ => tidy item
  | Obj _ _ => false
  | _ => true
  end.

(** The value a property has after [removeUndefined], [undefined] when
    the property was dropped. *)
Definition kept (v : Js) : Js :=
  default Undefined (clean_value v).

(** What [validateFormData] will ask of a raw field once it has been
    normalised at position [index] and stored. *)
Definition storable_nested (nestedField : Js) : bool :=
  bool_decide (typeof (get nestedField "id") = "string")
  && bool_decide (typeof (get nestedField "label") = "string").

Definition storable_field (index : nat) (field : Js) : bool :=
  bool_decide (typeof (get field "id") = "string")
  && bool_decide (typeof (get field "label") = "string")
  && bool_decide (typeof (nullish_or (get field "order")
                            (Num (inject_Z (Z.of_nat (index + 1))))) = "number")
  && (negb (truthy (get field "options")) || isArray (get field "options"))
  && (if is_string "dynamic" (get field "type")
      then match get field "fields" with
           | Arr nested => forallb storable_nested nested
           | _ => false
           end
      else true).

Fixpoint all_storable (index : nat) (fields : list Js) : bool :=
  match fields with
  | [] => true
  | field :: rest => storable_field index field && all_storable (S index) rest
  end.

End Firestore.

(** ** Sample form data, as the agent's JSON would parse *)

Module FirestoreExamples.
Import Firestore.

(** [{ id: "name", type: "text", label: "Full Name", required: true }] *)
Definition raw_name : Js :=
  Obj Plain [ ("id", Str "name"); ("type", Str "text");
              ("label", Str "Full Name"); ("required", Bool true) ].

(** A group with one child. *)
Definition raw_members : Js :=
  Obj Plain [ ("id", Str "members"); ("type", Str "dynamic");
              ("label", Str "Members");
              ("fields", Arr [ Obj Plain [ ("id", Str "email"); ("type", Str "text");
                                           ("label", Str "Email") ] ]) ].

(** A field whose id is the number 7. *)
Definition raw_seven : Js :=
  Obj Plain [ ("id", Num 7); ("type", Str "text"); ("label", Str "Seven") ].

Definition people : Js :=
  Obj Plain [ ("formId", Str "people"); ("title", Str "People");
              ("fields", Arr [raw_name; raw_members]) ].

Definition sevens : Js :=
  Obj Plain [ ("formId", Str "sevens"); ("fields", Arr [raw_name; raw_seven]) ].

(** A [Timestamp] instance. *)
Definition sample_now : Js :=
  Obj TimestampClass [ ("seconds", Num 1700000000); ("nanoseconds", Num 0) ].

(** A stand-in for [trim] on strings without surrounding white space. *)
Definition no_trim (s : string) : string := s.

(** [{ a: undefined, b: [[1, undefined], undefined], c: null }] *)
Definition gappy : list (string * Js) :=
  [ ("a", Undefined); ("b", Arr [Arr [Num 1; Undefined]; Undefined]); ("c", Null) ].

(** [{ b: [{ x: 1 }, "s"], c: null }] *)
Definition neat : list (string * Js) :=
  [ ("b", Arr [Obj Plain [("x", Num 1)]; Str "s"]); ("c", Null) ].

End FirestoreExamples.

(* ===================================================================== *)
(** * Properties of the validator *)
(* ===================================================================== *)

Module ValidatorSpec.
Import Validator ValidatorExamples.
#[local] Open Scope list_scope.

(** ** Every check only appends to [errors] *)

Section Accumulation.
Context {A : Type}.

(** A loop whose body appends [g x] to the accumulator appends the
    concatenation of all the [g x]. *)
Lemma fold_left_appends (f : list string → A → list string) (g : A → list string) :
  (∀ acc x, f acc x = acc ++ g x) →
  ∀ l acc, fold_left f l acc = acc ++ flat_map g l.
Proof.
  intros Hf l. induction l as [|x l IH]; intros acc; simpl.
  - by rewrite app_nil_r.
  - rewrite IH, Hf. by rewrite <- app_assoc.
Qed.
End Accumulation.

Ltac split_ifs :=
  repeat match goal with
         | |- context [if ?b then _ else _] => destruct b
         end.

Lemma check_nested_type_appends field nf i v errors :
  check_nested_type field nf i v errors = errors ++ check_nested_type field nf i v [].
Proof.
  unfold check_nested_type, push.
  destruct (Nested.type nf); split_ifs; simpl; by rewrite ?app_nil_r.
Qed.

Lemma check_nested_field_appends field i entry errors nf :
  check_nested_field field i entry errors nf = errors ++ nested_errors field i entry nf.
Proof.
  unfold nested_errors, check_nested_field, push.
  destruct (truthy _ && is_blank _); [done|].
  destruct (negb _); [apply check_nested_type_appends | by rewrite app_nil_r].
Qed.

Lemma check_entry_appends field nested i entry errors :
  check_entry field nested i entry errors = errors ++ entry_errors field nested i entry.
Proof.
  unfold entry_errors, check_entry, push.
  destruct (negb _ || is_null _); [done|].
  rewrite !(fold_left_appends _ _ (check_nested_field_appends field i entry)).
  done.
Qed.

Lemma check_entries_appends field nested value : ∀ i errors,
  check_entries field nested i value errors
  = errors ++ concat (imap (λ k entry, entry_errors field nested (i + k) entry) value).
Proof.
  induction value as [|entry rest IH]; intros i errors; simpl.
  - by rewrite app_nil_r.
  - rewrite IH, check_entry_appends, Nat.add_0_r, <- app_assoc.
    do 2 f_equal. f_equal. apply imap_ext. intros k x _. simpl. f_equal. lia.
Qed.

Lemma check_type_appends field v errors :
  check_type field v errors = errors ++ check_type field v [].
Proof.
  unfold check_type, push.
  destruct (Field.type field); split_ifs; simpl; by rewrite ?app_nil_r.
Qed.

Lemma check_dynamic_appends field v errors :
  check_dynamic field v errors = errors ++ check_dynamic field v [].
Proof.
  unfold check_dynamic, push.
  destruct (truthy _ && _); [done|].
  destruct (elements v) as [l|], (Field.fields field);
    try (split_ifs; simpl; by rewrite ?app_nil_r).
  by rewrite !check_entries_appends.
Qed.

Lemma check_field_appends data errors field :
  check_field data errors field = errors ++ field_errors data field.
Proof.
  unfold field_errors, check_field, push.
  destruct (Field.type field); try apply check_dynamic_appends;
    (destruct (truthy _ && is_blank _); [done|];
     destruct (negb _); [apply check_type_appends | by rewrite app_nil_r]).
Qed.

(** The error list is the concatenation, in field order, of what each field
    reports on the stripped data. *)
Lemma validate_errors fields data :
  (validate fields data).2 = flat_map (field_errors (strip_unknown fields data)) fields.
Proof.
  unfold validate. simpl.
  by rewrite (fold_left_appends _ _ (check_field_appends _)).
Qed.

(** ** Stripping *)

Lemma elem_of_keys (data : gmap string Json) k : k ∈ keys data ↔ is_Some (data !! k).
Proof.
  unfold keys. rewrite list_elem_of_fmap. split.
  - intros [[k' v] [-> Hin]]. apply elem_of_map_to_list in Hin. eauto.
  - intros [v Hv]. exists (k, v). split; [done|]. by apply elem_of_map_to_list.
Qed.

Lemma fold_strip_lookup ids ks : ∀ (data : gmap string Json) k,
  fold_left (strip_key ids) ks data !! k
  = if decide (k ∈ ks ∧ k ∉ ids) then None else data !! k.
Proof.
  induction ks as [|key ks IH]; intros data k.
  - destruct (decide (k ∈ [] ∧ k ∉ ids)) as [[H _]|_]; [|done].
    by apply not_elem_of_nil in H.
  - change (fold_left (strip_key ids) (key :: ks) data)
      with (fold_left (strip_key ids) ks (strip_key ids data key)).
    rewrite IH.
    destruct (decide (k ∈ ks ∧ k ∉ ids)) as [[Hin Hid]|Hn].
    { rewrite decide_True; [done|]. split; [by right|done]. }
    unfold strip_key. destruct (decide (key ∈ ids)) as [Hkey|Hkey].
    + rewrite bool_decide_true by done. simpl.
      rewrite decide_False; [done|]. intros [H Hid].
      apply elem_of_cons in H as [->|H]; [done|]. by destruct Hn.
    + rewrite bool_decide_false by done. simpl.
      destruct (decide (k = key)) as [->|Hne].
      * rewrite lookup_delete_eq. rewrite decide_True; [done|]. split; [by left|done].
      * rewrite lookup_delete_ne by done.
        rewrite decide_False; [done|]. intros [H Hid].
        apply elem_of_cons in H as [->|H]; [done|]. by destruct Hn.
Qed.

(** After the stripping loop, [data] holds exactly the submitted entries
    whose key is a field id. *)
Lemma strip_unknown_lookup fields data k :
  strip_unknown fields data !! k
  = if decide (k ∈ fieldIds fields) then data !! k else None.
Proof.
  unfold strip_unknown. rewrite fold_strip_lookup.
  destruct (decide (k ∈ fieldIds fields)) as [Hid|Hid].
  - rewrite decide_False; [done|]. intros [_ ?]. done.
  - destruct (decide (k ∈ keys data)) as [Hk|Hk].
    + rewrite decide_True; done.
    + rewrite decide_False by (intros [? _]; done).
      destruct (data !! k) eqn:E; [|done].
      destruct Hk. apply elem_of_keys. eauto.
Qed.

Lemma field_id_known fields (field : Field.t) :
  field ∈ fields → Field.id field ∈ fieldIds fields.
Proof.
  intros Hin. unfold fieldIds. apply elem_of_list_to_set, list_elem_of_fmap. eauto.
Qed.

Lemma strip_unknown_field fields data (field : Field.t) :
  field ∈ fields → strip_unknown fields data !! Field.id field = data !! Field.id field.
Proof.
  intros Hin. rewrite strip_unknown_lookup.
  by rewrite decide_True by by apply field_id_known.
Qed.

Lemma strip_unknown_delete fields data k :
  k ∉ fieldIds fields → strip_unknown fields (delete k data) = strip_unknown fields data.
Proof.
  intros Hk. apply map_eq. intros j. rewrite !strip_unknown_lookup.
  case_decide as Hj; [|done].
  rewrite lookup_delete_ne; [done|]. intros ->. done.
Qed.

(** ** Reading a field's value *)

Lemma get_object_own (data : gmap string Json) k v :
  data !! k = Some v → get_object data k = Data v.
Proof. intros H. unfold get_object. by rewrite H. Qed.

Lemma get_object_absent (data : gmap string Json) k :
  data !! k = None →
  get_object data k
  = if bool_decide (k = "__proto__") then ObjectPrototype
    else if bool_decide (k ∈ object_prototype) then Method k
    else Undefined.
Proof. intros H. unfold get_object. by rewrite H. Qed.

(** What is read for an absent key is never an array. *)
Lemma get_object_absent_elements (data : gmap string Json) k :
  data !! k = None → elements (get_object data k) = None.
Proof.
  intros H. rewrite get_object_absent by done. by repeat case_bool_decide.
Qed.

(** A key that no prototype defines reads as [undefined] when absent. *)
Lemma get_object_undefined (data : gmap string Json) k :
  data !! k = None → k ≠ "__proto__" → k ∉ object_prototype →
  get_object data k = Undefined.
Proof.
  intros H Hproto Hmethod. rewrite get_object_absent by done.
  by rewrite !bool_decide_false.
Qed.

(** Stripping does not change what is read for a field. *)
Lemma get_object_strip fields data (field : Field.t) :
  field ∈ fields →
  get_object (strip_unknown fields data) (Field.id field)
  = get_object data (Field.id field).
Proof. intros Hin. unfold get_object. by rewrite strip_unknown_field. Qed.

(** ** Group fields *)

(** C3, as amended. A group field whose submitted value is present, not
    null and not an array gets exactly one message: "<label> must be an
    array" when the field is not required, and "<label> is required" when it
    is, since the required check of a group rejects every non-array first. *)
Theorem C3_group_wrong_type fields data (field : Field.t) v :
  field ∈ fields →
  Field.type field = dynamic →
  data !! Field.id field = Some v →
  is_null (Data v) = false →
  isArray (Data v) = false →
  ∀ errors,
    check_field (strip_unknown fields data) errors field
    = errors ++ [Field.label field +:+
                 (if truthy (Field.required field)
                  then " is required" else " must be an array")].
Proof.
  intros Hin Hty Hv Hnull Harr errors.
  unfold check_field.
  rewrite Hty, (get_object_strip _ _ _ Hin), (get_object_own _ _ _ Hv).
  unfold check_dynamic, push. rewrite Harr. simpl.
  rewrite andb_true_r.
  destruct (truthy (Field.required field)); [done|].
  destruct v; try discriminate; by destruct (Field.fields field).
Qed.

Lemma C3_group_wrong_type_witness :
  check_field (strip_unknown [members; guests] guests_as_string) [] guests
  = ["Guests must be an array"].
Proof.
  apply (C3_group_wrong_type [members; guests] guests_as_string guests
           (JStr "everyone")).
  - right. left.
  - reflexivity.
  - reflexivity.
  - reflexivity.
  - reflexivity.
Defined.

(** C3 as stated fails: for the required group [members] submitted as a
    string the validator reports "Members is required" and never
    "Members must be an array". *)
Lemma C3_required_group_counterexample :
  Field.type members = dynamic
  ∧ members_as_string !! Field.id members = Some (JStr "everyone")
  ∧ (validate [members] members_as_string).2 = ["Members is required"]
  ∧ "Members must be an array" ∉ (validate [members] members_as_string).2.
Proof.
  assert (E : (validate [members] members_as_string).2 = ["Members is required"])
    by (vm_compute; reflexivity).
  split; [reflexivity|]. split; [reflexivity|]. split; [exact E|].
  rewrite E. intros H. apply list_elem_of_singleton in H. discriminate.
Qed.

(** C8. A required group whose submitted value is absent or the empty
    array gets exactly the one message "<label> is required", whatever its
    children are; the entries are not looked at. *)
Theorem C8_required_group_empty fields data (field : Field.t) :
  field ∈ fields →
  Field.type field = dynamic →
  truthy (Field.required field) = true →
  data !! Field.id field = None ∨ data !! Field.id field = Some (JArr []) →
  ∀ errors,
    check_field (strip_unknown fields data) errors field
    = errors ++ [Field.label field +:+ " is required"].
Proof.
  intros Hin Hty Hreq Hv errors.
  unfold check_field. rewrite Hty, (get_object_strip _ _ _ Hin).
  unfold check_dynamic, push, isArray. rewrite Hreq.
  destruct Hv as [Hv | Hv].
  - by rewrite (get_object_absent_elements _ _ Hv).
  - by rewrite (get_object_own _ _ _ Hv).
Qed.

Lemma C8_required_group_empty_witness :
  check_field (strip_unknown [members] members_empty) [] members
  = ["Members is required"].
Proof.
  apply (C8_required_group_empty [members] members_empty members).
  - left.
  - reflexivity.
  - reflexivity.
  - right. reflexivity.
Defined.

(** C7. For a group whose array is checked, the messages are those of the
    entries in order; an entry that is an object contributes the messages
    of every child field in order; a child contributes at most one message
    per entry, and when it is required and what [entry[id]] gives is
    undefined, null or the empty string, that message is the required
    one. *)
Theorem C7_children_all_visited (field : Field.t) nested l :
  Field.fields field = Some nested →
  truthy (Field.required field) = false ∨ l ≠ [] →
  (∀ errors,
     check_dynamic field (Data (JArr l)) errors
     = errors ++ concat (imap (entry_errors field nested) l))
  ∧ (∀ i entry,
       typeof (Data entry) = "object" → is_null (Data entry) = false →
       entry_errors field nested i entry
       = flat_map (nested_errors field i entry) nested)
  ∧ (∀ i entry nf, length (nested_errors field i entry nf) ≤ 1)
  ∧ (∀ i entry nf,
       truthy (Nested.required nf) = true →
       is_blank (get entry (Nested.id nf)) = true →
       nested_errors field i entry nf
       = [Field.label field +:+ " - " +:+ Nested.label nf
          +:+ " is required for entry " +:+ entry_no i]).
Proof.
  intros Hfields Hgo. split; [|split; [|split]].
  - intros errors. unfold check_dynamic. rewrite Hfields.
    replace (truthy (Field.required field) && _) with false.
    + cbn [elements]. rewrite check_entries_appends. do 2 f_equal.
    + symmetry. apply andb_false_iff. destruct Hgo as [->|Hl]; [by left|right].
      simpl. destruct l; [done|]. by rewrite bool_decide_false.
  - intros i entry Hobj Hnull. unfold entry_errors, check_entry.
    rewrite Hobj, Hnull. simpl.
    by rewrite (fold_left_appends _ _ (check_nested_field_appends field i entry)).
  - intros i entry nf. unfold nested_errors, check_nested_field, check_nested_type, push.
    destruct (Nested.type nf); split_ifs; simpl; lia.
  - intros i entry nf Hreq Hblank. unfold nested_errors, check_nested_field, push.
    by rewrite Hreq, Hblank.
Qed.

Lemma C7_children_all_visited_witness :
  check_dynamic members (Data (JArr [JObj {[ "adult" := JNum 1 ]}])) []
  = concat (imap (entry_errors members [email; age]) [JObj {[ "adult" := JNum 1 ]}])
  ∧ entry_errors members [email; age] 0 (JObj {[ "adult" := JNum 1 ]})
    = flat_map (nested_errors members 0 (JObj {[ "adult" := JNum 1 ]})) [email; age]
  ∧ length (nested_errors members 0 (JObj {[ "adult" := JNum 1 ]}) age) ≤ 1
  ∧ nested_errors members 0 (JObj {[ "adult" := JNum 1 ]}) email
    = ["Members - Email is required for entry 1"].
Proof.
  destruct (C7_children_all_visited members [email; age]
              [JObj {[ "adult" := JNum 1 ]}]) as (Hgroup & Hentry & Hone & Hreq).
  - reflexivity.
  - right. discriminate.
  - split; [exact (Hgroup [])|]. split; [|split; [apply Hone|]].
    + apply Hentry; reflexivity.
    + apply Hreq; reflexivity.
Defined.

(** The error list of that submission, as the handler returns it. *)
Example members_one_entry_errors :
  (validate [members] members_one_entry).2
  = ["Members - Email is required for entry 1";
     "Members - Adult must be a boolean for entry 1"].
Proof. vm_compute. reflexivity. Qed.

(** ** Scalar fields *)

(** C10. A required checkbox submitted as [false] adds no message. *)
Theorem C10_required_checkbox_false fields data (field : Field.t) :
  field ∈ fields →
  Field.type field = checkbox →
  truthy (Field.required field) = true →
  data !! Field.id field = Some (JBool false) →
  ∀ errors, check_field (strip_unknown fields data) errors field = errors.
Proof.
  intros Hin Hty Hreq Hv errors.
  unfold check_field.
  rewrite Hty, (get_object_strip _ _ _ Hin), (get_object_own _ _ _ Hv), Hreq.
  simpl. unfold check_type. by rewrite Hty.
Qed.

Lemma C10_required_checkbox_false_witness :
  check_field (strip_unknown [terms] terms_false) [] terms = []
  ∧ submit [terms] terms_false = Saved {[ "terms" := JBool false ]}.
Proof.
  split.
  - apply (C10_required_checkbox_false [terms] terms_false terms).
    + left.
    + reflexivity.
    + reflexivity.
    + reflexivity.
  - vm_compute. reflexivity.
Defined.

(** ** Unknown keys *)




(** The whole of that submission is what is saved. *)
Example entry_keys_not_stripped :
  submit [members] members_with_nickname = Saved members_with_nickname.
Proof. vm_compute. reflexivity. Qed.

End ValidatorSpec.

(* ===================================================================== *)
(** * Properties of the agent runner *)
(* ===================================================================== *)

Module AgentSpec.
Import Agent AgentExamples.
#[local] Open Scope list_scope.

(** Reads the fields of the frames built along the way. *)
Ltac run_simpl := cbn [world calls sandboxId input fst snd].

(** Unfolds the computation of [run] down to the collaborator calls. *)
Ltac run_unfold :=
  cbv [run run_body run_try run_catch run_finally bind ret throw try_catch
       try_finally call step date_now get_sandboxId set_sandboxId get_input
       set_input set_world];
  run_simpl.

(** Case analysis on the outcome of the next collaborator call. *)
Ltac next_call :=
  match goal with
  | |- context [trackAgentCall ?o ?p ?w] =>
      let e := fresh "e" in let w' := fresh "w'" in let E := fresh "E" in
      destruct (trackAgentCall o p w) as [[e|[]] w'] eqn:E
  | |- context [stopSandbox ?d ?i ?w] =>
      let e := fresh "e" in let w' := fresh "w'" in let E := fresh "E" in
      destruct (stopSandbox d i w) as [[e|[]] w'] eqn:E
  end;
  cbn [world calls sandboxId input fst snd].

(** ** Failed acquisition *)

(** C2, as amended. When the sandbox cannot be acquired, because no
    manager was supplied or because [createSandbox] throws, the caller gets
    the acquisition error, the executor is not called and no sandbox is
    stopped; the observability client, when there is one, is told of the
    failure once, and what it answers does not matter. *)
Theorem C2_acquisition_failure definition deps input w e w1 :
  truthy (requiresSandbox definition) = true →
  (daytona deps = None ∧ e = no_manager ∧ w1 = w)
  ∨ (∃ d, daytona deps = Some d
          ∧ createSandbox d (sandboxConfig definition) w = (inl e, w1)) →
  (run definition deps input w).1 = inl e
  ∧ List.filter is_gemini (calls (run definition deps input w).2) = []
  ∧ List.filter is_stop (calls (run definition deps input w).2) = []
  ∧ List.filter is_track (calls (run definition deps input w).2)
    = reported deps
        (failure_report definition input e (clock w1 - clock w) None).
Proof.
  intros Hreq Hacq. unfold reported. run_unfold. rewrite Hreq.
  destruct Hacq as [(Hd & -> & ->) | (d & Hd & Hcreate)]; rewrite Hd; run_simpl.
  - destruct (observability deps) as [o|]; run_simpl; [next_call|]; done.
  - rewrite Hcreate. run_simpl.
    destruct (observability deps) as [o|]; run_simpl; [next_call|]; done.
Qed.

Lemma C2_acquisition_failure_witness :
  (run sandboxed unmanaged_deps 1%positive world0).1 = inl no_manager.
Proof.
  apply (C2_acquisition_failure sandboxed unmanaged_deps 1%positive world0
           no_manager world0).
  - reflexivity.
  - left. split; [reflexivity|]. split; reflexivity.
Defined.

(** C2 as stated fails: [createSandbox] throws, and the observability
    client is called all the same. *)
Lemma C2_observability_called_counterexample :
  createSandbox daytona_full (sandboxConfig sandboxed) world0
    = (inl (Error "no capacity"), tick 5 world0)
  ∧ (run sandboxed full_deps 1%positive world0).1 = inl (Error "no capacity")
  ∧ calls (run sandboxed full_deps 1%positive world0).2
    = [CreateSandbox None;
       failure_report sandboxed 1%positive (Error "no capacity") 5 None].
Proof. split; [reflexivity|]. split; reflexivity. Qed.

(** ** Failing executor *)

(** C4, as amended. When a sandbox with a non-empty id was acquired and the
    executor throws, the caller gets the executor's error whatever the
    observability client and [stopSandbox] do, and [stopSandbox] is called
    exactly once, last, with the id of the sandbox. *)
Theorem C4_backend_failure definition deps input w d sb w1 e w3 :
  truthy (requiresSandbox definition) = true →
  daytona deps = Some d →
  createSandbox d (sandboxConfig definition) w = (inr sb, w1) →
  id sb ≠ "" →
  gemini_run (gemini deps) (systemPrompt definition)
    (enrich input (id sb) w1).1 (enrich input (id sb) w1).2 = (inl e, w3) →
  (run definition deps input w).1 = inl e
  ∧ calls (run definition deps input w).2
    = [CreateSandbox (sandboxConfig definition);
       GeminiRun (systemPrompt definition) (enrich input (id sb) w1).1]
      ++ reported deps
           (failure_report definition (enrich input (id sb) w1).1 e
              (clock w3 - clock w) (Some (id sb)))
      ++ [StopSandbox (id sb)]
  ∧ List.filter is_stop (calls (run definition deps input w).2)
    = [StopSandbox (id sb)].
Proof.
  intros Hreq Hd Hcreate Hid Hrun. unfold reported. run_unfold.
  rewrite Hreq, Hd. run_simpl. rewrite Hcreate. run_simpl.
  destruct (enrich input (id sb) w1) as [input' w2]. cbn [fst snd] in Hrun.
  run_simpl. rewrite Hrun. run_simpl.
  destruct (observability deps) as [o|]; run_simpl; [next_call|];
    rewrite (bool_decide_false _ Hid); next_call; done.
Qed.

Lemma C4_backend_failure_witness :
  (run sandboxed failing_deps 1%positive world0).1
  = inl (Error "Gemini API error: boom")
  ∧ List.filter is_stop (calls (run sandboxed failing_deps 1%positive world0).2)
    = [StopSandbox "sb-1"].
Proof.
  destruct (C4_backend_failure sandboxed failing_deps
              1%positive world0 (daytona_sticky "sb-1") {| id := "sb-1" |}
              (tick 5 world0) (Error "Gemini API error: boom")
              (tick 40 (enrich 1%positive "sb-1" (tick 5 world0)).2))
    as (Hout & _ & Hstop).
  - reflexivity.
  - reflexivity.
  - reflexivity.
  - discriminate.
  - reflexivity.
  - split; [exact Hout | exact Hstop].
Defined.

(** C4 as stated fails for a sandbox whose id is the empty string: the
    executor throws and [stopSandbox] is never called. *)
Lemma C4_empty_id_counterexample :
  createSandbox (daytona_ok "") (sandboxConfig sandboxed) world0
    = (inr {| id := "" |}, tick 5 world0)
  ∧ (run sandboxed empty_id_deps 1%positive world0).1
    = inl (Error "Gemini API error: boom")
  ∧ List.filter is_stop (calls (run sandboxed empty_id_deps 1%positive world0).2)
    = [].
Proof. split; [reflexivity|]. split; reflexivity. Qed.

(** ** Failing observability client *)

(** C1 at the failing input: no sandbox, the executor answers, and
    [trackAgentCall] throws. The caller gets the client's error instead of
    the executor's output, after the client was called a second time from
    the [catch] block. *)
Theorem C1_sink_error_replaces_output :
  (gemini_run gemini_ok (systemPrompt plain) 1%positive world0).1 = inr 4%positive
  ∧ (run plain unmanaged_deps 1%positive world0).1 = inl (Error "sink down")
  ∧ calls (run plain unmanaged_deps 1%positive world0).2
    = [GeminiRun (systemPrompt plain) 1%positive;
       success_report plain 1%positive 4%positive 40 None;
       failure_report plain 1%positive (Error "sink down") 41 None].
Proof. split; [reflexivity|]. split; reflexivity. Qed.

(** The same on every run without a sandbox: once the executor has
    answered, an error thrown by [trackAgentCall] on the success report is
    what the caller gets. *)
Lemma sink_error_masks_success definition deps input w output w1 o e w2 :
  truthy (requiresSandbox definition) = false →
  gemini_run (gemini deps) (systemPrompt definition) input w = (inr output, w1) →
  observability deps = Some o →
  trackAgentCall o
    {| Track.definition := definition; Track.input := input;
       Track.output := Some output; Track.error := None;
       Track.durationMs := clock w1 - clock w; Track.sandboxId := None |}
    (attach_metadata output (clock w1 - clock w) None w1) = (inl e, w2) →
  (run definition deps input w).1 = inl e.
Proof.
  intros Hreq Hrun Ho Htrack. run_unfold. rewrite Hreq. run_simpl.
  rewrite Hrun. run_simpl. rewrite Ho. run_simpl. rewrite Htrack. run_simpl.
  next_call; destruct (daytona deps); done.
Qed.

(** The failure path does what C1 asks: when the executor throws, the
    caller gets its error whether or not the observability client throws. *)
Lemma backend_error_survives_sink definition deps input w e w1 :
  truthy (requiresSandbox definition) = false →
  gemini_run (gemini deps) (systemPrompt definition) input w = (inl e, w1) →
  (run definition deps input w).1 = inl e.
Proof.
  intros Hreq Hrun. run_unfold. rewrite Hreq. run_simpl. rewrite Hrun. run_simpl.
  destruct (observability deps) as [o|]; run_simpl; [next_call|];
    destruct (daytona deps); done.
Qed.

(** ** The object store *)

Lemma alloc_fresh o w : heap w !! (alloc o w).1 = None.
Proof. apply not_elem_of_dom, is_fresh. Qed.

Lemma alloc_lookup o w : heap (alloc o w).2 !! (alloc o w).1 = Some o.
Proof. apply lookup_insert_eq. Qed.

Lemma alloc_subseteq o w : heap w ⊆ heap (alloc o w).2.
Proof. apply insert_subseteq, (alloc_fresh o). Qed.

Lemma enrich_subseteq input sid w : heap w ⊆ heap (enrich input sid w).2.
Proof.
  unfold enrich.
  destruct (alloc (<["sandboxId":=VStr sid]> (context_of w input)) w)
    as [c w1] eqn:E.
  transitivity (heap w1).
  - replace w1 with (alloc (<["sandboxId":=VStr sid]> (context_of w input)) w).2
      by by rewrite E.
    apply alloc_subseteq.
  - apply alloc_subseteq.
Qed.

Lemma keeps_refl l w : keeps l w w.
Proof. by intros o. Qed.

Lemma keeps_trans l w1 w2 w3 : keeps l w1 w2 → keeps l w2 w3 → keeps l w1 w3.
Proof. intros H12 H23 o Ho. by apply H23, H12. Qed.

Lemma subseteq_keeps l w w' : heap w ⊆ heap w' → keeps l w w'.
Proof. intros Hsub o Ho. by eapply lookup_weaken. Qed.

(** Attaching the metadata writes to the output object and to a new one
    only. *)
Lemma attach_keeps l output durationMs sid w :
  output ≠ l → keeps l w (attach_metadata output durationMs sid w).
Proof.
  intros Hne o Ho. unfold attach_metadata, assign. cbn.
  rewrite lookup_insert_ne by done.
  rewrite lookup_insert_ne; [done|].
  intros Heq. pose proof (is_fresh (dom (heap w))) as Hfresh.
  rewrite Heq in Hfresh. apply Hfresh, elem_of_dom. eauto.
Qed.

(** ** Computations that leave an object alone *)

Section Keeps.
Context (l : loc).

Lemma keepsM_ret {A} (a : A) : keepsM l (ret a).
Proof. intros s. apply keeps_refl. Qed.

Lemma keepsM_throw {A} e : keepsM l (throw (A:=A) e).
Proof. intros s. apply keeps_refl. Qed.

Lemma keepsM_bind_post {A B} (P : A → Prop) (m : M A) (k : A → M B) :
  keepsM l m →
  (∀ s a s', is_Some (heap (world s) !! l) → m s = (inr a, s') → P a) →
  (∀ a, P a → keepsM l (k a)) →
  keepsM l (bind m k).
Proof.
  intros Hm HP Hk s o Ho. unfold bind. specialize (Hm s o Ho).
  destruct (m s) as [[e|a] s'] eqn:E; [done|].
  apply Hk; [|done]. eapply HP; eauto.
Qed.

Lemma keepsM_bind {A B} (m : M A) (k : A → M B) :
  keepsM l m → (∀ a, keepsM l (k a)) → keepsM l (bind m k).
Proof. intros Hm Hk. apply (keepsM_bind_post (λ _, True)); auto. Qed.

Lemma keepsM_try_catch {A} (m : M A) (h : exn → M A) :
  keepsM l m → (∀ e, keepsM l (h e)) → keepsM l (try_catch m h).
Proof.
  intros Hm Hh s. unfold try_catch. specialize (Hm s).
  destruct (m s) as [[e|a] s']; [|done].
  eapply keeps_trans; [exact Hm|]. apply Hh.
Qed.

Lemma keepsM_try_finally {A} (m : M A) (c : M unit) :
  keepsM l m → keepsM l c → keepsM l (try_finally m c).
Proof.
  intros Hm Hc s. unfold try_finally. specialize (Hm s).
  destruct (m s) as [r s']. specialize (Hc s').
  destruct (c s') as [[e|u] s'']; by eapply keeps_trans.
Qed.

Lemma keepsM_call {A} ev (a : action A) : allocating a → keepsM l (call ev a).
Proof.
  intros Ha s. unfold call. specialize (Ha (world s)).
  destruct (a (world s)) as [r w']. by apply subseteq_keeps.
Qed.

Lemma keepsM_step {A} (f : World → A * World) :
  (∀ w, keeps l w (f w).2) → keepsM l (step f).
Proof.
  intros Hf s. unfold step. specialize (Hf (world s)).
  by destruct (f (world s)) as [a w'].
Qed.

Lemma keepsM_pure {A} (m : M A) :
  (∀ s, world (m s).2 = world s) → keepsM l m.
Proof. intros Hm s. rewrite Hm. apply keeps_refl. Qed.

Lemma call_result {A} ev (a : action A) s x s' :
  call ev a s = (inr x, s') → a (world s) = (inr x, world s').
Proof.
  unfold call. destruct (a (world s)) as [r w']. by intros [= -> <-].
Qed.

Context (definition : AgentDefinition) (deps : AgentDeps).
Context (Halloc : allocating_deps deps).

Lemma run_finally_keeps : keepsM l (run_finally deps).
Proof.
  unfold run_finally. apply keepsM_bind; [by apply keepsM_pure|]. intros sid.
  destruct sid as [sid|], (daytona deps) as [d|] eqn:Hd; try apply keepsM_ret.
  case_bool_decide; [apply keepsM_ret|].
  apply keepsM_try_catch; [|intros; apply keepsM_ret].
  by apply keepsM_call, (stop_allocating deps Halloc).
Qed.

Lemma run_catch_keeps start e : keepsM l (run_catch definition deps start e).
Proof.
  unfold run_catch. apply keepsM_bind; [by apply keepsM_pure|]. intros now.
  apply keepsM_bind; [|intros; apply keepsM_throw].
  destruct (observability deps) as [o|] eqn:Ho; [|apply keepsM_ret].
  apply keepsM_bind; [by apply keepsM_pure|]. intros i.
  apply keepsM_bind; [by apply keepsM_pure|]. intros sid.
  apply keepsM_try_catch; [|intros; apply keepsM_ret].
  by apply keepsM_call, (track_allocating deps Halloc).
Qed.

(** The executor never answers with the object at [l]. *)
Context (Hout : ∀ prompt input w output w',
           is_Some (heap w !! l) →
           gemini_run (gemini deps) prompt input w = (inr output, w') → output ≠ l).

Lemma run_try_keeps start : keepsM l (run_try definition deps start).
Proof.
  unfold run_try. apply keepsM_bind.
  { destruct (truthy _); [|apply keepsM_ret].
    destruct (daytona deps) as [d|] eqn:Hd; [|apply keepsM_throw].
    apply keepsM_bind; [by apply keepsM_call, (create_allocating deps Halloc)|].
    intros sb. apply keepsM_bind; [by apply keepsM_pure|]. intros _.
    apply keepsM_bind; [by apply keepsM_pure|]. intros i.
    apply keepsM_bind; [|intros; by apply keepsM_pure].
    apply keepsM_step. intros w. apply subseteq_keeps, enrich_subseteq. }
  intros _. apply keepsM_bind; [by apply keepsM_pure|]. intros i.
  apply (keepsM_bind_post (λ output, output ≠ l)).
  - apply keepsM_call, (gemini_allocating deps Halloc).
  - intros s output s' Hl Hcall. apply call_result in Hcall. eauto.
  - intros output Hne.
    apply keepsM_bind; [by apply keepsM_pure|]. intros now.
    apply keepsM_bind; [by apply keepsM_pure|]. intros sid.
    apply keepsM_bind; [apply keepsM_step; intros w; by apply attach_keeps|].
    intros _. apply keepsM_bind; [|intros; apply keepsM_ret].
    destruct (observability deps) as [o|] eqn:Ho; [|apply keepsM_ret].
    by apply keepsM_call, (track_allocating deps Halloc).
Qed.

(** [run] leaves alone every object that its collaborators leave alone and
    that the executor does not return as its output. *)
Lemma run_keeps input w : keeps l w (world (run definition deps input w).2).
Proof.
  unfold run.
  assert (H : keepsM l (run_body definition deps)).
  { unfold run_body. apply keepsM_bind; [by apply keepsM_pure|]. intros start.
    apply keepsM_try_finally; [|apply run_finally_keeps].
    apply keepsM_try_catch; [apply run_try_keeps|apply run_catch_keeps]. }
  apply (H {| world := w; calls := []; sandboxId := None; input := input |}).
Qed.

End Keeps.

(** The derived input: two new objects, the copy and its context. *)
Lemma enrich_spec input sid w :
  is_Some (heap w !! input) →
  (enrich input sid w).1 ≠ input
  ∧ ∃ c, heap w !! c = None
      ∧ heap (enrich input sid w).2 !! (enrich input sid w).1
        = Some (<["context" := VRef c]> (props (heap w) input))
      ∧ heap (enrich input sid w).2 !! c
        = Some (<["sandboxId" := VStr sid]> (context_of w input)).
Proof.
  intros Hin. unfold enrich. cbn.
  set (o := <["sandboxId":=VStr sid]> (context_of w input)).
  set (c := fresh (dom (heap w))).
  set (h1 := <[c:=o]> (heap w)).
  assert (Hc : heap w !! c = None) by apply not_elem_of_dom, is_fresh.
  assert (Hi : h1 !! fresh (dom h1) = None) by apply not_elem_of_dom, is_fresh.
  split.
  - intros Heq. rewrite Heq in Hi. unfold h1 in Hi.
    rewrite lookup_insert_ne in Hi.
    + rewrite Hi in Hin. by destruct Hin.
    + intros ->. rewrite Hc in Hin. by destruct Hin.
  - exists c. split; [done|]. split; [apply lookup_insert_eq|].
    rewrite lookup_insert_ne.
    + apply lookup_insert_eq.
    + intros Heq. rewrite Heq in Hi. unfold h1 in Hi. by rewrite lookup_insert_eq in Hi.
Qed.

(** The output after the merge: its [metadata] is a new object holding the
    old entries under [durationMs] and [sandboxId]. *)
Lemma attach_spec output durationMs sid w :
  is_Some (heap w !! output) →
  ∃ m, heap (attach_metadata output durationMs sid w) !! output
       = Some (<["metadata" := VRef m]> (props (heap w) output))
     ∧ heap (attach_metadata output durationMs sid w) !! m
       = Some (<["sandboxId" := of_optional sid]>
                 (<["durationMs" := VNum (inject_Z durationMs)]> (metadata_of w output))).
Proof.
  intros Hout. unfold attach_metadata, assign. cbn.
  set (m := fresh (dom (heap w))).
  assert (Hm : heap w !! m = None) by apply not_elem_of_dom, is_fresh.
  assert (Hne : output ≠ m) by (intros ->; rewrite Hm in Hout; by destruct Hout).
  exists m. split.
  - rewrite lookup_insert_eq. do 2 f_equal. unfold props.
    by rewrite lookup_insert_ne.
  - rewrite lookup_insert_ne by done. apply lookup_insert_eq.
Qed.

(** ** The caller's input *)

(** Case analysis on everything [run] does after the sandbox was
    acquired. *)
Ltac run_cases :=
  repeat (run_simpl;
          first
            [ match goal with
              | |- context [gemini_run ?g ?p ?i ?w] =>
                  let e := fresh "e" in let out := fresh "out" in
                  let w' := fresh "w'" in
                  destruct (gemini_run g p i w) as [[e|out] w']
              | |- context [match observability ?d with _ => _ end] =>
                  destruct (observability d)
              | |- context [bool_decide (?x = "")] =>
                  destruct (bool_decide (x = ""))
              end
            | next_call ]).


(** The sample collaborators only create objects. *)
Lemma gemini_ok_allocating prompt input : allocating (gemini_run gemini_ok prompt input).
Proof.
  intros w. cbn.
  etransitivity; [apply (alloc_subseteq {[ "model" := VStr "g"; "sandboxId" := VStr "mine" ]})|].
  apply insert_subseteq, not_elem_of_dom, is_fresh.
Qed.

Lemma working_deps_allocating : allocating_deps working_deps.
Proof.
  split; cbn.
  - apply gemini_ok_allocating.
  - by intros d config [= <-] w.
  - by intros d sid [= <-] w.
  - by intros o params [= <-] w.
Qed.

(** The sample executor answers with a new object. *)
Lemma gemini_ok_new_output l prompt input w output w' :
  is_Some (heap w !! l) →
  gemini_run gemini_ok prompt input w = (inr output, w') → output ≠ l.
Proof.
  intros [o Ho]. cbn. intros [= <- _] Heq.
  pose proof (is_fresh (dom (<[fresh (dom (heap w)) :=
                {[ "model" := VStr "g"; "sandboxId" := VStr "mine" ]}]> (heap w)))) as Hf.
  apply Hf. rewrite Heq. apply elem_of_dom.
  exists o. rewrite lookup_insert_ne; [done|].
  intros E. pose proof (is_fresh (dom (heap w))) as Hf'.
  apply Hf'. rewrite E. apply elem_of_dom. eauto.
Qed.


(** ** Successful run *)




End AgentSpec.

(* ===================================================================== *)
(** * The runner on every path *)
(* ===================================================================== *)

Module RunnerSpec.
Import Agent AgentExamples AgentCalls AgentSpec.
#[local] Open Scope list_scope.

(** Case analysis on the next collaborator call of a run. *)
Ltac case_step :=
  first
    [ match goal with
      | |- context [createSandbox ?d ?c ?w] =>
          let e := fresh "e" in let sb := fresh "sb" in
          let w' := fresh "w'" in
          destruct (createSandbox d c w) as [[e|sb] w']
      | |- context [enrich ?i ?s ?w] =>
          let i' := fresh "i'" in let w' := fresh "w'" in
          destruct (enrich i s w) as [i' w']
      | |- context [gemini_run ?g ?p ?i ?w] =>
          let e := fresh "e" in let out := fresh "out" in
          let w' := fresh "w'" in
          destruct (gemini_run g p i w) as [[e|out] w']
      | |- context [match observability ?d with _ => _ end] =>
          destruct (observability d)
      | |- context [match daytona ?d with _ => _ end] =>
          destruct (daytona d)
      | |- context [bool_decide (?x = "")] =>
          destruct (bool_decide (x = ""))
      end
    | next_call ].

Ltac all_cases := repeat (run_simpl; case_step).

(** X1. A definition that does not require a sandbox never reaches the
    sandbox manager: the executor is called once, with the caller's own
    input object, and every other call is a report to the observability
    client, of which there are at most two. *)
Theorem no_sandbox_no_manager definition deps input w :
  truthy (requiresSandbox definition) = false →
  ∃ reports,
    calls (run definition deps input w).2
    = GeminiRun (systemPrompt definition) input :: reports
    ∧ forallb is_track reports = true
    ∧ length reports ≤ 2.
Proof.
  intros Hreq. run_unfold. rewrite Hreq. all_cases;
    eexists; (split; [reflexivity|]); split; (reflexivity || (cbn; lia)).
Qed.

Lemma no_sandbox_no_manager_witness :
  ∃ reports,
    calls (run plain unmanaged_deps 1%positive world0).2
    = GeminiRun (systemPrompt plain) 1%positive :: reports
    ∧ forallb is_track reports = true
    ∧ length reports ≤ 2.
Proof.
  apply (no_sandbox_no_manager plain unmanaged_deps 1%positive world0).
  reflexivity.
Defined.

(** X2. What the caller gets, and which calls are made, do not depend on
    what [stopSandbox] does: it may answer, throw or change the world. *)
Theorem outcome_ignores_stopSandbox definition deps stop input w :
  (run definition deps input w).1
  = (run definition (with_stop deps stop) input w).1
  ∧ calls (run definition deps input w).2
    = calls (run definition (with_stop deps stop) input w).2.
Proof.
  run_unfold. unfold with_stop. cbn [gemini daytona observability].
  destruct (truthy (requiresSandbox definition));
    destruct (daytona deps) as [d|]; cbn [createSandbox stopSandbox];
    all_cases;
    repeat match goal with
           | |- context [stop ?i ?w] =>
               let e := fresh "e" in let w' := fresh "w'" in
               destruct (stop i w) as [[e|[]] w']; run_simpl
           end;
    done.
Qed.

(** X3. Once a sandbox with a non-empty id has been created, the run ends
    with exactly one [stopSandbox] call, for that id, on every path: the
    executor may answer or throw, and so may the observability client. *)
Theorem acquired_sandbox_released_once definition deps input w d sb w1 :
  truthy (requiresSandbox definition) = true →
  daytona deps = Some d →
  createSandbox d (sandboxConfig definition) w = (inr sb, w1) →
  id sb ≠ "" →
  ∃ before,
    calls (run definition deps input w).2 = before ++ [StopSandbox (id sb)]
    ∧ List.filter is_stop before = []
    ∧ List.filter is_create before = [CreateSandbox (sandboxConfig definition)].
Proof.
  intros Hreq Hd Hcreate Hid. run_unfold.
  rewrite Hreq, Hd. run_simpl. rewrite Hcreate.
  repeat (run_simpl; first [rewrite (bool_decide_false _ Hid) | case_step]);
    match goal with
    | |- ∃ _, ?l ++ [?x] = _ ∧ _ => exists l; done
    end.
Qed.

Lemma acquired_sandbox_released_once_witness :
  ∃ before,
    calls (run sandboxed failing_deps 1%positive world0).2
    = before ++ [StopSandbox "sb-1"]
    ∧ List.filter is_stop before = []
    ∧ List.filter is_create before = [CreateSandbox None].
Proof.
  apply (acquired_sandbox_released_once sandboxed failing_deps 1%positive world0
           (daytona_sticky "sb-1") {| id := "sb-1" |} (tick 5 world0)).
  - reflexivity.
  - reflexivity.
  - reflexivity.
  - discriminate.
Defined.

(** X4. A run never stops a sandbox it did not create: every
    [stopSandbox] call carries the id that [createSandbox] returned in this
    run. *)
Theorem stops_only_what_it_created definition deps input w sid :
  In (StopSandbox sid) (calls (run definition deps input w).2) →
  ∃ d sb w1,
    daytona deps = Some d
    ∧ createSandbox d (sandboxConfig definition) w = (inr sb, w1)
    ∧ id sb = sid.
Proof.
  assert (Hnone : ∀ l : list Event, List.filter is_stop l = [] →
            In (StopSandbox sid) l →
            ∃ d sb w1, daytona deps = Some d
              ∧ createSandbox d (sandboxConfig definition) w = (inr sb, w1)
              ∧ id sb = sid).
  { intros l Hl Hin. exfalso.
    assert (In (StopSandbox sid) (List.filter is_stop l)) as H
      by (apply filter_In; by split).
    by rewrite Hl in H. }
  run_unfold.
  destruct (truthy (requiresSandbox definition)).
  - destruct (daytona deps) as [d|] eqn:Hd; run_simpl.
    + destruct (createSandbox d (sandboxConfig definition) w) as [[e|sb] w1] eqn:Hc;
        run_simpl.
      * all_cases; by apply Hnone.
      * intros H. exists d, sb, w1. split; [done|]. split; [done|].
        revert H. all_cases; cbn; intros H;
          repeat (destruct H as [H|H]; [first [discriminate H | by injection H]|]);
          contradiction.
    + all_cases; by apply Hnone.
  - all_cases; by apply Hnone.
Qed.

Lemma stops_only_what_it_created_witness :
  ∃ d sb w1,
    daytona failing_deps = Some d
    ∧ createSandbox d (sandboxConfig sandboxed) world0 = (inr sb, w1)
    ∧ id sb = "sb-1".
Proof.
  apply (stops_only_what_it_created sandboxed failing_deps 1%positive world0 "sb-1").
  vm_compute. right. right. right. left. reflexivity.
Defined.

(** X5. A run makes at most one call to [createSandbox], to the executor
    and to [stopSandbox], and at most two to the observability client:
    nothing is retried. *)
Theorem calls_bounded definition deps input w :
  length (List.filter is_create (calls (run definition deps input w).2)) ≤ 1
  ∧ length (List.filter is_gemini (calls (run definition deps input w).2)) ≤ 1
  ∧ length (List.filter is_stop (calls (run definition deps input w).2)) ≤ 1
  ∧ length (List.filter is_track (calls (run definition deps input w).2)) ≤ 2.
Proof.
  run_unfold.
  destruct (truthy (requiresSandbox definition));
    all_cases; cbn; lia.
Qed.

(** X6. With an observability client, the error a failed run surfaces is
    the error of the last report the client received. *)
Theorem surfaced_error_was_reported definition deps input w o e :
  observability deps = Some o →
  (run definition deps input w).1 = inl e →
  ∃ ev,
    last (List.filter is_track (calls (run definition deps input w).2)) = Some ev
    ∧ reported_error ev = Some e.
Proof.
  intros Ho. run_unfold. rewrite Ho.
  destruct (truthy (requiresSandbox definition));
    all_cases; cbn; intros [= <-] || (intros H; discriminate H);
    eexists; (split; [reflexivity|]); reflexivity.
Qed.

Lemma surfaced_error_was_reported_witness :
  ∃ ev,
    last (List.filter is_track (calls (run plain unmanaged_deps 1%positive world0).2))
    = Some ev
    ∧ reported_error ev = Some (Error "sink down").
Proof.
  apply (surfaced_error_was_reported plain unmanaged_deps 1%positive world0 sink_down).
  - reflexivity.
  - reflexivity.
Defined.

(** X7. When a run returns an output, the executor was called exactly once
    and the observability client, if any, received exactly one report, the
    one carrying that output and no error. *)
Theorem success_reported_once definition deps input w output :
  (run definition deps input w).1 = inr output →
  length (List.filter is_gemini (calls (run definition deps input w).2)) = 1
  ∧ ∃ ev,
      List.filter is_track (calls (run definition deps input w).2) = reported deps ev
      ∧ reported_output ev = Some output
      ∧ reported_error ev = None.
Proof.
  unfold reported. run_unfold.
  destruct (truthy (requiresSandbox definition));
    all_cases; cbn; intros H; first [discriminate H | injection H as ->];
    (split; [reflexivity|]);
    first [ solve [eexists; split; [reflexivity|]; split; reflexivity]
          | exists (success_report definition input output 0 None); done ].
Qed.

Lemma success_reported_once_witness :
  length (List.filter is_gemini (calls (run sandboxed working_deps 1%positive world0).2))
  = 1
  ∧ ∃ ev,
      List.filter is_track (calls (run sandboxed working_deps 1%positive world0).2)
      = reported working_deps ev
      ∧ reported_output ev = Some 6%positive
      ∧ reported_error ev = None.
Proof.
  apply (success_reported_once sandboxed working_deps 1%positive world0 6%positive).
  reflexivity.
Defined.



End RunnerSpec.

(* ===================================================================== *)
(** * The shipped collaborators under the runner *)
(* ===================================================================== *)

Module CollaboratorsSpec.
Import Agent AgentExamples AgentCalls Collaborators CollaboratorExamples.
Import AgentSpec RunnerSpec.
#[local] Open Scope list_scope.

(** ** The sandbox manager *)

Lemma sandbox_id_not_empty (t r : string) : "sandbox-" +:+ t +:+ "-" +:+ r ≠ "".
Proof. discriminate. Qed.

(** X9. With the repository's sandbox manager, a run of a definition that
    requires a sandbox always creates one, named after the clock, and ends
    by stopping it, exactly once, whatever the executor and the
    observability client do. *)
Theorem shipped_manager_always_releases definition gemini observability random input w :
  truthy (requiresSandbox definition) = true →
  ∃ before,
    calls (run definition
             {| gemini := gemini; daytona := Some (createDaytonaManager random);
                observability := observability |} input w).2
    = before ++ [StopSandbox ("sandbox-" +:+ pretty (clock w) +:+ "-" +:+ random w)]
    ∧ List.filter is_stop before = []
    ∧ List.filter is_create before = [CreateSandbox (sandboxConfig definition)].
Proof.
  intros Hreq. run_unfold. rewrite Hreq. cbn [daytona createDaytonaManager createSandbox stopSandbox].
  repeat (run_simpl; cbn [id];
          first [rewrite (bool_decide_false _ (sandbox_id_not_empty _ _)) | case_step]);
    run_simpl;
    match goal with
    | |- ∃ _, ?l ++ [?x] = _ ∧ _ => exists l; done
    end.
Qed.

Lemma shipped_manager_always_releases_witness :
  ∃ before,
    calls (run sandboxed
             {| gemini := gemini_down; daytona := Some (createDaytonaManager (λ _, "k3x"));
                observability := Some sink_down |} 1%positive world0).2
    = before ++ [StopSandbox "sandbox-1000-k3x"]
    ∧ List.filter is_stop before = []
    ∧ List.filter is_create before = [CreateSandbox None].
Proof.
  apply (shipped_manager_always_releases sandboxed gemini_down (Some sink_down)
           (λ _, "k3x") 1%positive world0).
  reflexivity.
Defined.

(** ** The Gemini executor *)

Section ExecutorSpec.
Context (render : val → string).

(** X10. Once the model object is obtained, whatever [generateContent]
    (with the awaiting of its response) or [response.text()] throws reaches
    the caller as an [Error] whose message is "Gemini API error: " followed
    by the message of that very error, or by [String] of what was thrown
    when it is no [Error]; and the executor throws nothing else. *)
Theorem executor_errors_wrapped genAI systemPrompt input w model w1 :
  getGenerativeModel genAI "gemini-2.5-flash" w = (inr model, w1) →
  (∀ cause w',
     generateContent model
       (build_prompt render systemPrompt (get (heap w1) input "text")) w1
     = (inl cause, w') →
     executor_run render genAI systemPrompt input w
     = (inl (Error ("Gemini API error: " +:+ error_message render cause)), w'))
  ∧ (∀ resp w2 cause w',
       generateContent model
         (build_prompt render systemPrompt (get (heap w1) input "text")) w1
       = (inr resp, w2) →
       text resp w2 = (inl cause, w') →
       executor_run render genAI systemPrompt input w
       = (inl (Error ("Gemini API error: " +:+ error_message render cause)), w'))
  ∧ (∀ e w',
       executor_run render genAI systemPrompt input w = (inl e, w') →
       ∃ cause,
         e = Error ("Gemini API error: " +:+ error_message render cause)
         ∧ (generateContent model
              (build_prompt render systemPrompt (get (heap w1) input "text")) w1
            = (inl cause, w')
            ∨ ∃ resp w2,
                generateContent model
                  (build_prompt render systemPrompt (get (heap w1) input "text")) w1
                = (inr resp, w2)
                ∧ text resp w2 = (inl cause, w'))).
Proof.
  intros Hmodel. unfold executor_run. rewrite Hmodel.
  split; [|split].
  - intros cause w' Hgen. by rewrite Hgen.
  - intros resp w2 cause w' Hgen Htext. by rewrite Hgen, Htext.
  - intros e w'.
    destruct (generateContent model _ w1) as [[e1|resp] w2].
    { intros [= <- <-]. exists e1. split; [done|]. by left. }
    destruct (text resp w2) as [[e2|t] w3] eqn:Htext.
    { intros [= <- <-]. exists e2. split; [done|]. right. by exists resp, w2. }
    by destruct (build_output resp t w3).
Qed.

(** An error thrown by [getGenerativeModel], which is called before the
    [try], is passed on as it is. *)
Lemma executor_model_error_unwrapped genAI prompt input w e w1 :
  getGenerativeModel genAI "gemini-2.5-flash" w = (inl e, w1) →
  executor_run render genAI prompt input w = (inl e, w1).
Proof. intros Hmodel. unfold executor_run. by rewrite Hmodel. Qed.

(** What [build_output] leaves in the store. *)
Lemma build_output_spec resp t w :
  heap w ⊆ heap (build_output resp t w).2
  ∧ clock (build_output resp t w).2 = clock w
  ∧ heap w !! (build_output resp t w).1 = None
  ∧ ∃ m tokens,
      heap (build_output resp t w).2 !! (build_output resp t w).1
      = Some {[ "text" := VStr t; "rawModelResponse" := response resp;
                "metadata" := VRef m ]}
      ∧ heap w !! m = None
      ∧ heap (build_output resp t w).2 !! m = Some {[ "tokens" := tokens ]}
      ∧ match usageMetadata resp with
        | Some usage =>
            ∃ tk, tokens = VRef tk
                  ∧ heap w !! tk = None
                  ∧ heap (build_output resp t w).2 !! tk
                    = Some {[ "input" := promptTokenCount usage;
                              "output" := candidatesTokenCount usage ]}
        | None => tokens = VUndefined
        end.
Proof.
  unfold build_output.
  destruct (usageMetadata resp) as [usage|].
  - set (o1 := {[ "input" := promptTokenCount usage;
                  "output" := candidatesTokenCount usage ]} : gmap string val).
    pose proof (alloc_subseteq o1 w) as H1.
    pose proof (alloc_lookup o1 w) as L1.
    pose proof (alloc_fresh o1 w) as F1.
    assert (C1 : clock (alloc o1 w).2 = clock w) by reflexivity.
    destruct (alloc o1 w) as [t1 w1]. cbn [fst snd] in H1, L1, F1, C1.
    set (o2 := {[ "tokens" := VRef t1 ]} : gmap string val).
    pose proof (alloc_subseteq o2 w1) as H2.
    pose proof (alloc_lookup o2 w1) as L2.
    pose proof (alloc_fresh o2 w1) as F2.
    assert (C2 : clock (alloc o2 w1).2 = clock w1) by reflexivity.
    destruct (alloc o2 w1) as [m w2]. cbn [fst snd] in H2, L2, F2, C2.
    match goal with |- context [alloc ?o w2] => set (o3 := o) end.
    pose proof (alloc_subseteq o3 w2) as H3.
    pose proof (alloc_lookup o3 w2) as L3.
    pose proof (alloc_fresh o3 w2) as F3.
    assert (C3 : clock (alloc o3 w2).2 = clock w2) by reflexivity.
    destruct (alloc o3 w2) as [out w3]. cbn [fst snd] in *.
    split; [by do 2 (etransitivity; [eassumption|])|].
    split; [congruence|].
    split; [eapply lookup_weaken_None; [exact F3|]; by etransitivity|].
    exists m, (VRef t1). split; [done|].
    split; [by eapply lookup_weaken_None|].
    split; [by eapply lookup_weaken|].
    exists t1. split; [done|]. split; [done|].
    eapply lookup_weaken; [exact L1|]. by etransitivity.
  - set (o2 := {[ "tokens" := VUndefined ]} : gmap string val).
    pose proof (alloc_subseteq o2 w) as H2.
    pose proof (alloc_lookup o2 w) as L2.
    pose proof (alloc_fresh o2 w) as F2.
    assert (C2 : clock (alloc o2 w).2 = clock w) by reflexivity.
    destruct (alloc o2 w) as [m w2]. cbn [fst snd] in H2, L2, F2, C2.
    match goal with |- context [alloc ?o w2] => set (o3 := o) end.
    pose proof (alloc_subseteq o3 w2) as H3.
    pose proof (alloc_lookup o3 w2) as L3.
    pose proof (alloc_fresh o3 w2) as F3.
    assert (C3 : clock (alloc o3 w2).2 = clock w2) by reflexivity.
    destruct (alloc o3 w2) as [out w3]. cbn [fst snd] in *.
    split; [by etransitivity|].
    split; [congruence|].
    split; [by eapply lookup_weaken_None|].
    exists m, VUndefined. split; [done|].
    split; [done|]. split; [by eapply lookup_weaken|]. done.
Qed.

(** X11. When the executor answers, the text of its output is what
    [response.text()] returned for the response [generateContent] gave to
    the prompt, [rawModelResponse] is that response, and [metadata] is an
    object whose only entry is [tokens]: the two token counts of the usage
    metadata, or [undefined] when the response has none. The output, its
    metadata and the token counts are new objects, and nothing else has
    changed since [text()] returned. Setting neither [durationMs] nor
    [sandboxId], the executor leaves nothing for the runner's merge to
    replace. *)
Theorem executor_output_shape genAI systemPrompt input w output w' :
  executor_run render genAI systemPrompt input w = (inr output, w') →
  ∃ model w1 resp w2 t w3 m tokens,
    getGenerativeModel genAI "gemini-2.5-flash" w = (inr model, w1)
    ∧ generateContent model
        (build_prompt render systemPrompt (get (heap w1) input "text")) w1
      = (inr resp, w2)
    ∧ text resp w2 = (inr t, w3)
    ∧ heap w3 ⊆ heap w'
    ∧ clock w' = clock w3
    ∧ heap w3 !! output = None
    ∧ heap w' !! output
      = Some {[ "text" := VStr t; "rawModelResponse" := response resp;
                "metadata" := VRef m ]}
    ∧ heap w3 !! m = None
    ∧ heap w' !! m = Some {[ "tokens" := tokens ]}
    ∧ match usageMetadata resp with
      | Some usage =>
          ∃ tk, tokens = VRef tk
                ∧ heap w3 !! tk = None
                ∧ heap w' !! tk
                  = Some {[ "input" := promptTokenCount usage;
                            "output" := candidatesTokenCount usage ]}
      | None => tokens = VUndefined
      end
    ∧ (∀ k, k ≠ "tokens" → metadata_of w' output !! k = None)
    ∧ metadata_of w' output !! "tokens" = Some tokens.
Proof.
  unfold executor_run.
  destruct (getGenerativeModel genAI _ w) as [[e|model] w1]; [done|].
  destruct (generateContent model _ w1) as [[e|resp] w2] eqn:Hgen; [done|].
  destruct (text resp w2) as [[e|t] w3] eqn:Htext; [done|].
  destruct (build_output_spec resp t w3)
    as (Hsub & Hclock & Hfresh & m & tokens & Hout & Hmfresh & Hm & Htokens).
  destruct (build_output resp t w3) as [out w4]. cbn [fst snd] in *.
  intros [= <- <-].
  assert (Hmeta : metadata_of w4 out = {[ "tokens" := tokens ]}).
  { unfold metadata_of, get, props. rewrite Hout.
    change (spread (heap w4) (VRef m) = {[ "tokens" := tokens ]}).
    unfold spread, props. by rewrite Hm. }
  exists model, w1, resp, w2, t, w3, m, tokens.
  repeat (split; [done|]). rewrite Hmeta. split.
  - intros k Hk. by rewrite lookup_singleton_ne.
  - by rewrite lookup_singleton_eq.
Qed.

(** The executor creates objects at most, and answers with a new one. *)
Lemma executor_frame genAI prompt input w :
  allocating_sdk genAI →
  heap w ⊆ heap (executor_run render genAI prompt input w).2
  ∧ ∀ output w', executor_run render genAI prompt input w = (inr output, w') →
      heap w !! output = None.
Proof.
  intros Hsdk. unfold executor_run.
  destruct (Hsdk "gemini-2.5-flash") as [Hget Hmodel].
  specialize (Hget w). specialize (Hmodel w).
  destruct (getGenerativeModel genAI _ w) as [[e|model] w1]; cbn [snd] in *; [done|].
  specialize (Hmodel model w1 eq_refl).
  match goal with |- context [generateContent model ?p w1] => set (pr := p) end.
  destruct (Hmodel pr) as [Hgen Htext].
  specialize (Hgen w1). specialize (Htext w1).
  destruct (generateContent model pr w1) as [[e|resp] w2]; cbn [snd] in *;
    [split; [by etransitivity|done]|].
  specialize (Htext resp w2 eq_refl w2).
  destruct (text resp w2) as [[e|t] w3]; cbn [snd] in *;
    [split; [by do 2 (etransitivity; [eassumption|])|done]|].
  destruct (build_output_spec resp t w3) as (Hsub & _ & Hfresh & _).
  destruct (build_output resp t w3) as [out w4]. cbn [fst snd] in *.
  split; [by do 3 (etransitivity; [eassumption|])|].
  intros output w' [= <- <-].
  eapply lookup_weaken_None; [exact Hfresh|].
  by do 2 (etransitivity; [eassumption|]).
Qed.

(** Over an SDK that does not modify existing objects, neither does
    the executor, and the output it answers with is an object that did not
    exist when it was called. *)
Theorem executor_allocates genAI prompt input :
  allocating_sdk genAI →
  allocating (executor_run render genAI prompt input)
  ∧ ∀ w output w',
      executor_run render genAI prompt input w = (inr output, w') →
      heap w !! output = None.
Proof.
  intros Hsdk. split.
  - intros w. by apply executor_frame.
  - intros w output w'. by apply executor_frame.
Qed.


End ExecutorSpec.

Lemma sample_sdk_allocating : allocating_sdk sample_sdk.
Proof.
  intros name. split; [by intros w|].
  intros w model w' [= <- <-] prompt. split; [by intros w0|].
  by intros w0 resp w0' [= <- <-] w1.
Qed.

Lemma executor_errors_wrapped_witness :
  executor_run sample_render exhausted_sdk "p" 1%positive world0
  = (inl (Error "Gemini API error: quota"), tick 30 world0).
Proof.
  destruct (executor_errors_wrapped sample_render exhausted_sdk "p" 1%positive world0
              {| generateContent := λ _ w', (inl (Thrown (VStr "quota")), tick 30 w') |}
              world0) as (Hgen & _ & _).
  - reflexivity.
  - apply (Hgen (Thrown (VStr "quota")) (tick 30 world0)). reflexivity.
Defined.

Lemma executor_output_shape_witness :
  ∃ model w1 resp w2 t w3 m tokens,
    getGenerativeModel sample_sdk "gemini-2.5-flash" world0 = (inr model, w1)
    ∧ generateContent model
        (build_prompt sample_render "p" (get (heap w1) 1%positive "text")) w1
      = (inr resp, w2)
    ∧ text resp w2 = (inr t, w3)
    ∧ heap w3 ⊆ heap (executor_run sample_render sample_sdk "p" 1%positive world0).2
    ∧ clock (executor_run sample_render sample_sdk "p" 1%positive world0).2 = clock w3
    ∧ heap w3 !! 5%positive = None
    ∧ heap (executor_run sample_render sample_sdk "p" 1%positive world0).2 !! 5%positive
      = Some {[ "text" := VStr t; "rawModelResponse" := response resp;
                "metadata" := VRef m ]}
    ∧ heap w3 !! m = None
    ∧ heap (executor_run sample_render sample_sdk "p" 1%positive world0).2 !! m
      = Some {[ "tokens" := tokens ]}
    ∧ match usageMetadata resp with
      | Some usage =>
          ∃ tk, tokens = VRef tk
                ∧ heap w3 !! tk = None
                ∧ heap (executor_run sample_render sample_sdk "p" 1%positive world0).2 !! tk
                  = Some {[ "input" := promptTokenCount usage;
                            "output" := candidatesTokenCount usage ]}
      | None => tokens = VUndefined
      end
    ∧ (∀ k, k ≠ "tokens" →
         metadata_of (executor_run sample_render sample_sdk "p" 1%positive world0).2
           5%positive !! k = None)
    ∧ metadata_of (executor_run sample_render sample_sdk "p" 1%positive world0).2
        5%positive !! "tokens" = Some tokens.
Proof.
  apply (executor_output_shape sample_render sample_sdk "p" 1%positive world0).
  reflexivity.
Defined.

Lemma executor_allocates_witness :
  allocating (executor_run sample_render sample_sdk "p" 1%positive).
Proof.
  apply (executor_allocates sample_render sample_sdk "p" 1%positive).
  exact sample_sdk_allocating.
Defined.


End CollaboratorsSpec.

(* ===================================================================== *)
(** * More on the validator *)
(* ===================================================================== *)

Module ValidatorMoreSpec.
Import Validator ValidatorExamples ValidatorMoreExamples ValidatorSpec.
#[local] Open Scope list_scope.

(** ** Scalar fields *)





(** X15. A dropdown with options accepts a non-empty string exactly when
    it is the value of one of the options; otherwise the one message is
    "<label> must be one of the allowed options". A dropdown without
    options accepts every non-empty string. *)
Theorem dropdown_rule fields data (field : Field.t) s :
  field ∈ fields →
  Field.type field = dropdown →
  data !! Field.id field = Some (JStr s) →
  s ≠ "" →
  ∀ errors,
    check_field (strip_unknown fields data) errors field
    = match Field.options field with
      | Some opts =>
          if bool_decide (s ∈ value <$> opts) then errors
          else errors ++ [Field.label field +:+ " must be one of the allowed options"]
      | None => errors
      end.
Proof.
  intros Hin Hty Hv Hs errors.
  unfold check_field.
  rewrite (get_object_strip _ _ _ Hin), Hty, (get_object_own _ _ _ Hv).
  assert (Hnb : is_blank (Data (JStr s)) = false) by by destruct s.
  rewrite Hnb, andb_false_r. cbn [negb].
  unfold check_type. rewrite Hty. cbn.
  destruct (Field.options field) as [opts|]; [|done]. cbn.
  assert (Hex : existsb (λ opt, bool_decide (value opt = s)) opts
                = bool_decide (s ∈ value <$> opts)).
  { induction opts as [|opt opts IH]; cbn.
    - symmetry. apply bool_decide_eq_false. apply not_elem_of_nil.
    - rewrite IH. change (value <$> opt :: opts) with (value opt :: (value <$> opts)).
      destruct (decide (value opt = s)) as [<-|Hne].
      + rewrite bool_decide_true by done. cbn. symmetry.
        apply bool_decide_eq_true. by left.
      + rewrite (bool_decide_false (value opt = s)) by done. cbn.
        apply bool_decide_ext. rewrite elem_of_cons.
        split; [by right | intros [Heq|Hin']; [congruence | done]]. }
  rewrite Hex. by destruct (bool_decide (s ∈ value <$> opts)).
Qed.

Lemma dropdown_rule_witness :
  check_field (strip_unknown person ann) [] country = [].
Proof.
  apply (dropdown_rule person ann country "in").
  - right. right. left.
  - reflexivity.
  - reflexivity.
  - discriminate.
Defined.

(** X16. Apart from dropdown options, a submitted value that is not blank
    is accepted by its [typeof] alone: a checkbox takes exactly the
    booleans, and text, date and option-less dropdown fields take exactly
    the strings; a date is not checked to be a date. *)
Theorem scalar_accepted_by_typeof fields data (field : Field.t) v :
  field ∈ fields →
  Field.type field ≠ dynamic →
  (Field.type field = dropdown → Field.options field = None) →
  data !! Field.id field = Some v →
  is_blank (Data v) = false →
  field_errors (strip_unknown fields data) field = []
  ↔ typeof (Data v)
    = match Field.type field with checkbox => "boolean" | _ => "string" end.
Proof.
  intros Hin Hty Hopts Hv Hnb.
  unfold field_errors, check_field.
  rewrite (get_object_strip _ _ _ Hin), (get_object_own _ _ _ Hv), Hnb, andb_false_r.
  cbn [negb].
  unfold check_type, push.
  destruct (Field.type field) eqn:E; try done.
  - case_bool_decide; cbn; [done|]. split; [discriminate|done].
  - case_bool_decide; cbn; [done|]. split; [discriminate|done].
  - rewrite (Hopts eq_refl).
    case_bool_decide; cbn; [done|]. split; [discriminate|done].
  - case_bool_decide; cbn; [done|]. split; [discriminate|done].
Qed.

Lemma scalar_accepted_by_typeof_witness :
  field_errors (strip_unknown person ann) birthdate = []
  ↔ typeof (Data (JStr "soon")) = "string".
Proof.
  apply (scalar_accepted_by_typeof person ann birthdate (JStr "soon")).
  - right. left.
  - discriminate.
  - discriminate.
  - reflexivity.
  - reflexivity.
Defined.

(** A field that is not a group adds at most one message. *)
Theorem scalar_at_most_one_message data (field : Field.t) :
  Field.type field ≠ dynamic →
  length (field_errors data field) ≤ 1.
Proof.
  intros Hty. unfold field_errors, check_field, check_type, push.
  destruct (Field.type field); try done; split_ifs; cbn; lia.
Qed.

Lemma scalar_at_most_one_message_witness :
  length (field_errors blank_name name) ≤ 1.
Proof.
  apply (scalar_at_most_one_message blank_name name). discriminate.
Defined.

(** ** Groups *)

(** X17. An entry of a group that is null or not an object at all gets the
    one message "<label> entry <n> must be an object", [n] counting from 1,
    and none of the child fields is checked on it. *)
Theorem non_object_entry (field : Field.t) nested i entry :
  typeof (Data entry) ≠ "object" ∨ entry = JNull →
  entry_errors field nested i entry
  = [Field.label field +:+ " entry " +:+ entry_no i +:+ " must be an object"].
Proof.
  intros Hentry. unfold entry_errors, check_entry, push.
  destruct Hentry as [Hty | ->]; [|done].
  by rewrite bool_decide_false.
Qed.

Lemma non_object_entry_witness :
  entry_errors members [email; age] 1 (JNum 3)
  = ["Members entry 2 must be an object"].
Proof.
  apply (non_object_entry members [email; age] 1 (JNum 3)).
  left. discriminate.
Defined.

(** ** Field ids that name a member of [Object.prototype] *)



(** The same holds of the child fields of a group: for an entry that is an
    object literal without a value of its own under the child's id. *)
Lemma inherited_child_not_missing (field : Field.t) i (entry : gmap string Json)
    (nf : Nested.t) :
  entry !! Nested.id nf = None →
  Nested.id nf = "__proto__" ∨ Nested.id nf ∈ object_prototype →
  nested_errors field i (JObj entry) nf
  = [(Field.label field +:+ " - " +:+ Nested.label nf) +:+
     match Nested.type nf with
     | ncheckbox => " must be a boolean for entry "
     | ntext => " must be a string for entry "
     | ndate => " must be a date string for entry "
     | ndropdown => " must be a string for entry "
     end +:+ entry_no i].
Proof.
  intros Hv Hid.
  assert (Hread : get_object entry (Nested.id nf) = ObjectPrototype
                  ∨ get_object entry (Nested.id nf) = Method (Nested.id nf)).
  { rewrite get_object_absent by done. destruct Hid as [-> | Hid]; [by left|].
    case_bool_decide; [by left|]. right. by rewrite bool_decide_true. }
  unfold nested_errors, check_nested_field, check_nested_type, push. cbn [get].
  destruct Hread as [-> | ->];
    destruct (Nested.type nf), (truthy (Nested.required nf)); reflexivity.
Qed.

(** The empty entry [{}] and the required child [valueOf]. *)
Example empty_entry_inherited_child :
  nested_errors members 0 (JObj ∅) worth
  = ["Members - Worth must be a string for entry 1"].
Proof.
  apply (inherited_child_not_missing members 0 ∅ worth).
  - reflexivity.
  - right. do 6 right. left.
Qed.

(** ** The whole validation *)

(** X19. The accepted values are the submitted ones restricted to the
    field ids: known keys keep their values, unmodified. *)
Theorem accepted_is_restriction fields data :
  (validate fields data).1
  = filter (λ kv, kv.1 ∈ fieldIds fields) data.
Proof.
  apply map_eq. intros k. cbn. rewrite strip_unknown_lookup.
  destruct (data !! k) as [v|] eqn:E.
  - case_decide.
    + symmetry. by apply map_lookup_filter_Some.
    + symmetry. apply map_lookup_filter_None. right. intros v' ?. naive_solver.
  - case_decide; symmetry; apply map_lookup_filter_None; by left.
Qed.

(** X20. The validator does not stop at the first failing field: the error
    list is the concatenation, in the order of the form's fields, of the
    messages of every field, so each message of each field is in it. *)
Theorem all_errors_collected fields data :
  (validate fields data).2
  = flat_map (field_errors (validate fields data).1) fields
  ∧ ∀ field msg,
      field ∈ fields →
      msg ∈ field_errors (validate fields data).1 field →
      msg ∈ (validate fields data).2.
Proof.
  assert (H : (validate fields data).2
              = flat_map (field_errors (validate fields data).1) fields)
    by apply validate_errors.
  split; [done|].
  intros field msg Hin Hmsg. rewrite H.
  apply list_elem_of_In, in_flat_map. exists field.
  split; by apply list_elem_of_In.
Qed.

(** X21. Validating the accepted values again changes nothing: they are
    accepted as they are, with the same errors. *)
Theorem revalidation_stable fields data :
  validate fields (validate fields data).1 = validate fields data.
Proof.
  assert (H : strip_unknown fields (strip_unknown fields data)
              = strip_unknown fields data).
  { apply map_eq. intros k. rewrite !strip_unknown_lookup. by case_decide. }
  unfold validate. cbn. by rewrite H.
Qed.

(** X22. The handler saves exactly when no field has a message, and what
    it saves is the stripped submission. *)
Theorem saved_iff_no_message fields data :
  (submit fields data = Saved (strip_unknown fields data)
   ↔ ∀ field, field ∈ fields → field_errors (strip_unknown fields data) field = [])
  ∧ ∀ saved, submit fields data = Saved saved → saved = strip_unknown fields data.
Proof.
  pose proof (validate_errors fields data) as Herr.
  unfold submit, validate in *. cbn in Herr. split.
  - split.
    + case_bool_decide as Hlen; [done|]. intros _ field Hin.
      destruct (field_errors (strip_unknown fields data) field) as [|msg rest] eqn:E;
        [done|].
      exfalso. apply Hlen. rewrite Herr.
      assert (In msg (flat_map (field_errors (strip_unknown fields data)) fields)) as Hm.
      { apply in_flat_map. exists field. split; [by apply list_elem_of_In|].
        rewrite E. by left. }
      destruct (flat_map _ fields); [done|]. cbn. lia.
    + intros Hall. rewrite bool_decide_false; [done|].
      rewrite Herr. clear Herr. revert Hall.
      generalize (strip_unknown fields data). intros d Hall.
      induction fields as [|f fs IH]; cbn; [lia|].
      rewrite (Hall f) by by left. cbn. apply IH.
      intros field Hin. apply Hall. by right.
  - intros saved. case_bool_decide; [done|]. by intros [= <-].
Qed.

End ValidatorMoreSpec.

(* ===================================================================== *)
(** * Properties of the form documents *)
(* ===================================================================== *)

Module FirestoreSpec.
Import Firestore FirestoreExamples.
#[local] Open Scope list_scope.

(** ** Induction on values *)

Section JsInduction.
Variable P : Js → Prop.
Hypothesis HUndefined : P Undefined.
Hypothesis HNull : P Null.
Hypothesis HBool : ∀ b, P (Bool b).
Hypothesis HNum : ∀ x, P (Num x).
Hypothesis HStr : ∀ s, P (Str s).
Hypothesis HArr : ∀ items, Forall P items → P (Arr items).
Hypothesis HObj : ∀ c entries, Forall (λ entry, P entry.2) entries → P (Obj c entries).

Fixpoint Js_induction (v : Js) : P v :=
  match v with
  | Undefined => HUndefined
  | Null => HNull
  | Bool b => HBool b
  | Num x => HNum x
  | Str s => HStr s
  | Arr items =>
      HArr items
        ((fix go (l : list Js) : Forall P l :=
            match l with
            | [] => List.Forall_nil _
            | x :: l' => List.Forall_cons _ x l' (Js_induction x) (go l')
            end) items)
  | Obj c entries =>
      HObj c entries
        ((fix go (l : list (string * Js)) : Forall (λ entry, P entry.2) l :=
            match l with
            | [] => List.Forall_nil _
            | entry :: l' =>
                List.Forall_cons _ entry l' (Js_induction entry.2) (go l')
            end) entries)
  end.

End JsInduction.

(** ** [removeUndefined] *)

Lemma removeUndefined_obj c entries :
  removeUndefined (Obj c entries) = omap clean_entry entries.
Proof. reflexivity. Qed.

Lemma removeUndefined_arr items :
  removeUndefined (Arr items) = index_entries 0 (map clean_value items).
Proof. reflexivity. Qed.

Lemma tidy_obj entries :
  tidy (Obj Plain entries) = forallb (λ entry, tidy entry.2) entries.
Proof. reflexivity. Qed.

Lemma tidy_arr items : tidy (Arr items) = forallb tidy_item items.
Proof. reflexivity. Qed.

Lemma index_entries_tidy values : ∀ i,
  Forall (λ value, ∀ v, value = Some v → tidy v = true) values →
  forallb (λ entry, tidy entry.2) (index_entries i values) = true.
Proof.
  induction values as [|[v|] rest IH]; intros i Hall; cbn; [done| |].
  - apply Forall_cons in Hall as [Hv Hrest].
    rewrite (Hv v eq_refl). cbn. by apply IH.
  - apply Forall_cons in Hall as [_ Hrest]. by apply IH.
Qed.

(** Whatever the loop keeps is tidy, and so is a cleaned object. *)
Lemma clean_tidy v :
  (∀ v', clean_value v = Some v' → tidy v' = true)
  ∧ tidy (Obj Plain (removeUndefined v)) = true.
Proof.
  induction v as [| | | | |items IH|c entries IH] using Js_induction;
    try (split; [by intros v' [= <-] || (intros v' H; discriminate H)|done]).
  - assert (Hitems : forallb tidy_item (map clean_item items) = true).
    { induction IH as [|item rest [_ Hitem] _ IHrest]; cbn; [done|].
      rewrite IHrest, andb_true_r. by destruct item as [| | | | | |[]]. }
    split.
    + intros v' [= <-]. by rewrite tidy_arr.
    + rewrite removeUndefined_arr, tidy_obj. apply index_entries_tidy.
      rewrite Forall_map. eapply Forall_impl; [exact IH|].
      intros item [Hitem _]. exact Hitem.
  - assert (Hentries : tidy (Obj Plain (removeUndefined (Obj c entries))) = true).
    { rewrite removeUndefined_obj, tidy_obj.
      induction IH as [|[k v] rest [Hv _] _ IHrest]; cbn; [done|].
      unfold clean_entry at 1. cbn.
      destruct (clean_value v) as [v'|] eqn:E; [|done].
      cbn. by rewrite (Hv v' E), IHrest. }
    split; [|done].
    destruct c; intros v' [= <-]; done.
Qed.

(** A tidy value is kept as it is. *)
Lemma tidy_clean v : tidy v = true → clean_value v = Some v.
Proof.
  induction v as [| | | | |items IH|c entries IH] using Js_induction;
    try done.
  - rewrite tidy_arr. intros Htidy. cbn. do 2 f_equal.
    induction IH as [|item rest Hitem _ IHrest]; cbn in *; [done|].
    apply andb_true_iff in Htidy as [Hi Hrest].
    rewrite IHrest by done. f_equal.
    destruct item as [| | | | | |[] es]; try done.
    specialize (Hitem Hi). unfold clean_value in Hitem. unfold clean_item.
    injection Hitem as Hitem. f_equal. exact Hitem.
  - destruct c; [|done..].
    rewrite tidy_obj. intros Htidy. cbn -[removeUndefined].
    rewrite removeUndefined_obj. do 2 f_equal.
    induction IH as [|[k v] rest Hv _ IHrest]; cbn in *; [done|].
    apply andb_true_iff in Htidy as [Hi Hrest].
    unfold clean_entry at 1. cbn. by rewrite (Hv Hi), IHrest.
Qed.

Lemma tidy_entries_kept entries :
  forallb (λ entry, tidy entry.2) entries = true →
  omap clean_entry entries = entries.
Proof.
  induction entries as [|[k v] rest IH]; cbn; [done|].
  intros [Hv Hrest]%andb_true_iff.
  unfold clean_entry at 1. cbn. by rewrite (tidy_clean v Hv), IH.
Qed.

(** X23. In what [removeUndefined] returns no object, at any depth, has a
    property whose value is [undefined], and the objects inside arrays are
    all plain: an array inside an array, and a [Timestamp] or [Date] inside
    an array, come out as plain objects. *)
Theorem cleaned_is_tidy obj : tidy (Obj Plain (removeUndefined obj)) = true.
Proof. apply clean_tidy. Qed.


(** X25. Cleaning twice is cleaning once. *)
Theorem removeUndefined_idempotent obj :
  removeUndefined (Obj Plain (removeUndefined obj)) = removeUndefined obj.
Proof.
  rewrite removeUndefined_obj. apply tidy_entries_kept.
  rewrite <- tidy_obj. apply clean_tidy.
Qed.


(** ** What the create route stores, read back *)

Lemma lookup_entry_eq k v rest : lookup_entry k ((k, v) :: rest) = v.
Proof. cbn. by rewrite bool_decide_true. Qed.

Lemma lookup_entry_ne k k' v rest :
  k ≠ k' → lookup_entry k ((k', v) :: rest) = lookup_entry k rest.
Proof. intros Hne. cbn. by rewrite bool_decide_false. Qed.

Lemma lookup_entry_absent k entries : k ∉ entries.*1 → lookup_entry k entries = Undefined.
Proof.
  induction entries as [|[k' v] rest IH]; [done|].
  intros Hk. rewrite fmap_cons in Hk. apply not_elem_of_cons in Hk as [Hne Hk].
  rewrite lookup_entry_ne by done. by apply IH.
Qed.

Lemma clean_keys entries k : k ∈ (omap clean_entry entries).*1 → k ∈ entries.*1.
Proof.
  induction entries as [|[k' v] rest IH]; cbn; [done|].
  unfold clean_entry at 1. cbn.
  destruct (clean_value v); cbn; rewrite ?elem_of_cons.
  - intros [->|Hin]; [by left | right; by apply IH].
  - intros Hin. right. by apply IH.
Qed.

(** Reading a property of a cleaned object. *)
Lemma lookup_clean k entries :
  NoDup entries.*1 →
  lookup_entry k (omap clean_entry entries) = kept (lookup_entry k entries).
Proof.
  induction entries as [|[k' v] rest IH]; [done|].
  rewrite fmap_cons. intros [Hk' Hrest]%NoDup_cons.
  destruct (decide (k = k')) as [->|Hne].
  - rewrite lookup_entry_eq. cbn [omap list_omap]. unfold clean_entry at 1. cbn [fst snd].
    unfold kept. destruct (clean_value v) as [v'|] eqn:E; cbn.
    + by rewrite bool_decide_true.
    + apply lookup_entry_absent. intros Hin. by apply Hk', clean_keys.
  - rewrite lookup_entry_ne by done. cbn [omap list_omap].
    unfold clean_entry at 1. cbn [fst snd].
    destruct (clean_value v) as [v'|]; [rewrite lookup_entry_ne by done|]; by apply IH.
Qed.

Lemma kept_typeof v : typeof (kept v) = typeof v.
Proof. by destruct v as [| | | | | |[]]. Qed.

Lemma kept_truthy v : truthy (kept v) = truthy v.
Proof. by destruct v as [| | | | | |[]]. Qed.

Lemma kept_isArray v : isArray (kept v) = isArray v.
Proof. by destruct v as [| | | | | |[]]. Qed.

Lemma kept_includes l v : includes l (kept v) = includes l v.
Proof. by destruct v as [| | | | | |[]]. Qed.

Lemma kept_is_string s v : is_string s (kept v) = is_string s v.
Proof. by destruct v as [| | | | | |[]]. Qed.

Lemma kept_arr items : kept (Arr items) = Arr (map clean_item items).
Proof. reflexivity. Qed.

Ltac nodup_strings :=
  repeat (apply NoDup_cons; split;
          [rewrite ?elem_of_cons, elem_of_nil; intuition discriminate|]);
  apply NoDup_nil_2.

Ltac lookups :=
  repeat first
    [ rewrite lookup_entry_eq
    | rewrite lookup_entry_ne by discriminate ].

Lemma keys_NoDup7 :
  NoDup ["id"; "type"; "label"; "required"; "placeholder"; "options"; "order"].
Proof. nodup_strings. Qed.

Lemma keys_NoDup8 :
  NoDup ["id"; "type"; "label"; "required"; "placeholder"; "options"; "order"; "fields"].
Proof. nodup_strings. Qed.

Lemma keys_NoDup6 :
  NoDup ["id"; "type"; "label"; "required"; "placeholder"; "options"].
Proof. nodup_strings. Qed.

Lemma keys_NoDup5 :
  NoDup ["formId"; "fields"; "title"; "createdAt"; "updatedAt"].
Proof. nodup_strings. Qed.

Lemma get_obj c entries k : get (Obj c entries) k = lookup_entry k entries.
Proof. reflexivity. Qed.

Lemma normalize_nested_valid parent n n' :
  normalize_nested parent n = inr n' →
  valid_nested (clean_item n') = Some (storable_nested n).
Proof.
  unfold normalize_nested.
  destruct n as [| | | | | |c es]; try (cbn; intros H; discriminate H).
  cbn [read]. rewrite !get_obj.
  destruct (negb (truthy (lookup_entry "id" es)) || _ || _); [intros H; discriminate H|].
  destruct (includes nested_types (lookup_entry "type" es)) eqn:Htype;
    [|intros H; discriminate H].
  cbn [negb]. intros [= <-].
  unfold clean_item. rewrite removeUndefined_obj.
  unfold valid_nested. cbn [read mbind option_bind].
  rewrite !lookup_clean by apply keys_NoDup6. lookups.
  rewrite !kept_typeof, kept_includes, Htype. cbn.
  unfold storable_nested. rewrite !get_obj.
  by rewrite orb_false_r, negb_orb, !negb_involutive.
Qed.

Lemma normalize_nested_all parent ns : ∀ i ns',
  map_throwing (λ _, normalize_nested parent) i ns = inr ns' →
  all_valid valid_nested (map clean_item ns') = Some (forallb storable_nested ns).
Proof.
  induction ns as [|n ns IH]; intros i ns'; cbn.
  - by intros [= <-].
  - destruct (normalize_nested parent n) as [e|n'] eqn:En; [intros H; discriminate H|].
    destruct (map_throwing _ (S i) ns) as [e|ns''] eqn:Ens; [intros H; discriminate H|].
    intros [= <-]. cbn [map all_valid].
    rewrite (normalize_nested_valid _ _ _ En).
    destruct (storable_nested n); [|done]. by apply (IH (S i)).
Qed.

Lemma normalize_field_valid i f nf :
  normalize_field i f = inr nf →
  valid_field (clean_item nf) = Some (storable_field i f).
Proof.
  unfold normalize_field.
  destruct f as [| | | | | |c es]; try (cbn; intros H; discriminate H).
  cbn [read]. rewrite !get_obj.
  destruct (negb (truthy (lookup_entry "id" es)) || _ || _); [intros H; discriminate H|].
  destruct (includes field_types (lookup_entry "type" es)) eqn:Htype;
    [|intros H; discriminate H].
  cbn [negb].
  unfold storable_field. rewrite !get_obj.
  destruct (is_string "dynamic" (lookup_entry "type" es)) eqn:Hdyn.
  - destruct (lookup_entry "fields" es) as [| | | | |nested|] eqn:Hfields;
      try (intros H; discriminate H).
    destruct (map_throwing (λ _, normalize_nested (lookup_entry "id" es)) 0 nested)
      as [e|nested'] eqn:Hnested; [intros H; discriminate H|].
    intros [= <-]. unfold clean_item. rewrite removeUndefined_obj.
    unfold valid_field. cbn [read mbind option_bind app].
    rewrite !lookup_clean by apply keys_NoDup8. lookups.
    rewrite !kept_typeof, kept_includes, kept_truthy, kept_isArray, kept_is_string.
    rewrite Htype, Hdyn, kept_arr.
    rewrite (normalize_nested_all _ _ _ _ Hnested).
    destruct (bool_decide (typeof (lookup_entry "id" es) = "string")),
      (bool_decide (typeof (lookup_entry "label" es) = "string")),
      (bool_decide (typeof (nullish_or (lookup_entry "order" es) _) = "number")),
      (truthy (lookup_entry "options" es)),
      (isArray (lookup_entry "options" es)); done.
  - intros [= <-]. unfold clean_item. rewrite removeUndefined_obj.
    unfold valid_field. cbn [read mbind option_bind].
    rewrite !lookup_clean by apply keys_NoDup7. lookups.
    rewrite !kept_typeof, kept_includes, kept_truthy, kept_isArray, kept_is_string.
    rewrite Htype, Hdyn.
    destruct (bool_decide (typeof (lookup_entry "id" es) = "string")),
      (bool_decide (typeof (lookup_entry "label" es) = "string")),
      (bool_decide (typeof (nullish_or (lookup_entry "order" es) _) = "number")),
      (truthy (lookup_entry "options" es)),
      (isArray (lookup_entry "options" es)); done.
Qed.

Lemma normalize_fields_valid fs : ∀ i nfs,
  map_throwing normalize_field i fs = inr nfs →
  all_valid valid_field (map clean_item nfs) = Some (all_storable i fs).
Proof.
  induction fs as [|f fs IH]; intros i nfs; cbn.
  - by intros [= <-].
  - destruct (normalize_field i f) as [e|nf] eqn:Ef; [intros H; discriminate H|].
    destruct (map_throwing normalize_field (S i) fs) as [e|nfs'] eqn:Efs;
      [intros H; discriminate H|].
    intros [= <-]. cbn [map all_valid].
    rewrite (normalize_field_valid _ _ _ Ef).
    destruct (storable_field i f); [|done]. by apply (IH (S i)).
Qed.

(** Whether [validateFormData] accepts the document stored for normalised
    fields. *)
Lemma stored_document_valid fs nfs formId title now :
  normalize_fields fs = inr nfs →
  validateFormData (Obj Plain (form_document formId nfs title now))
  = Some (bool_decide (typeof formId = "string") && all_storable 0 fs && truthy now).
Proof.
  intros Hnorm. unfold form_document. rewrite removeUndefined_obj.
  unfold validateFormData. cbn [truthy typeof negb orb read mbind option_bind].
  rewrite bool_decide_true by done. cbn [negb].
  rewrite !lookup_clean by apply keys_NoDup5. lookups.
  rewrite kept_typeof, kept_arr, kept_truthy.
  destruct (bool_decide (typeof formId = "string")); [|done]. cbn [negb andb].
  rewrite (normalize_fields_valid _ _ _ Hnorm).
  destruct (all_storable 0 fs); [|done].
  by destruct (truthy now).
Qed.

(** What a successful [map] with a throwing callback gives. *)
Lemma map_throwing_inr {E} (f : nat → Js → E + Js) items : ∀ i out,
  map_throwing f i items = inr out →
  length out = length items
  ∧ ∀ j item, items !! j = Some item →
      ∃ v, out !! j = Some v ∧ f (i + j) item = inr v.
Proof.
  induction items as [|item items IH]; intros i out; cbn.
  - intros [= <-]. split; [done|]. intros j x H. by destruct j.
  - destruct (f i item) as [e|v] eqn:Ev; [intros H; discriminate H|].
    destruct (map_throwing f (S i) items) as [e|vs] eqn:Evs; [intros H; discriminate H|].
    intros [= <-]. destruct (IH _ _ Evs) as [Hlen Hget].
    split; [cbn; by rewrite Hlen|].
    intros [|j] x Hx; cbn in *.
    + injection Hx as <-. exists v. by rewrite Nat.add_0_r.
    + destruct (Hget j x Hx) as (v' & Hv' & Hf). exists v'.
      split; [done|]. by replace (i + S j) with (S i + j) by lia.
Qed.

Lemma map_throwing_elem {E} (f : nat → Js → E + Js) items i out v :
  map_throwing f i items = inr out →
  v ∈ out → ∃ j item, items !! j = Some item ∧ f (i + j) item = inr v.
Proof.
  intros Hmap Hin. destruct (map_throwing_inr f items i out Hmap) as [Hlen Hget].
  apply list_elem_of_lookup in Hin as [j Hj].
  assert (j < length items) as Hlt by (rewrite <- Hlen; by eapply lookup_lt_Some).
  destruct (lookup_lt_is_Some_2 items j Hlt) as [item Hitem].
  destruct (Hget j item Hitem) as (v' & Hv' & Hf).
  exists j, item. split; [done|]. by rewrite Hj in Hv'; injection Hv' as ->.
Qed.

(** X27. When the create route has stored a form, [validateFormData]
    accepts the stored document, so that [getForm] can return it, exactly
    when every raw field is storable: its id and label are strings, its
    order is absent or a number, its options are falsy or an array, and the
    ids and labels of the children of a group are strings. The
    normalisation itself only asks that id, type and label be truthy. *)
Theorem stored_form_read_back trim formData now fs doc :
  get formData "fields" = Arr fs →
  store_form trim formData now = inr doc →
  truthy now = true →
  validateFormData (Obj Plain doc) = Some (all_storable 0 fs).
Proof.
  intros Hfs. unfold store_form.
  destruct formData as [| | | | | |c es]; try (cbn; intros H; discriminate H).
  cbn [read]. rewrite get_obj in Hfs. rewrite Hfs.
  destruct (negb (truthy (lookup_entry "formId" es))); [intros H; discriminate H|].
  destruct (normalize_fields fs) as [e|nfs] eqn:Hnorm; [intros H; discriminate H|].
  unfold createForm.
  destruct (lookup_entry "formId" es) as [| | | |formId| |] eqn:Hid;
    try (intros H; discriminate H).
  destruct (negb (truthy (Str formId)) || bool_decide (trim formId = ""));
    [intros H; discriminate H|].
  intros [= <-] Hnow.
  rewrite (stored_document_valid _ _ _ _ _ Hnorm), Hnow.
  cbn [typeof]. rewrite bool_decide_true by done. by rewrite andb_true_r.
Qed.

Lemma stored_form_read_back_witness :
  ∃ doc,
    store_form no_trim people sample_now = inr doc
    ∧ validateFormData (Obj Plain doc) = Some (all_storable 0 [raw_name; raw_members]).
Proof.
  eexists. split; [reflexivity|].
  apply (stored_form_read_back no_trim people sample_now [raw_name; raw_members]).
  - reflexivity.
  - reflexivity.
  - reflexivity.
Defined.

Lemma all_storable_false fs : ∀ i j f,
  fs !! j = Some f → storable_field (i + j) f = false → all_storable i fs = false.
Proof.
  induction fs as [|f0 fs IH]; intros i j f Hj Hf; [by destruct j|].
  destruct j as [|j]; cbn in *.
  - injection Hj as ->. rewrite Nat.add_0_r in Hf. by rewrite Hf.
  - apply andb_false_iff. right. apply (IH (S i) j f Hj).
    by replace (S i + j) with (i + S j) by lia.
Qed.

(** X28. The create route can store a form that can never be fetched: if
    the id of some field is truthy but not a string, normalisation lets it
    through, and [getForm] answers [null] for the stored document. *)
Theorem stored_form_unreadable trim formData now fs doc i f :
  get formData "fields" = Arr fs →
  fs !! i = Some f →
  typeof (get f "id") ≠ "string" →
  store_form trim formData now = inr doc →
  truthy now = true →
  getForm (Some (Obj Plain doc)) = Some None.
Proof.
  intros Hfs Hi Hid. unfold store_form.
  destruct formData as [| | | | | |c es]; try (cbn; intros H; discriminate H).
  cbn [read]. rewrite get_obj in Hfs. rewrite Hfs.
  destruct (negb (truthy (lookup_entry "formId" es))); [intros H; discriminate H|].
  destruct (normalize_fields fs) as [e|nfs] eqn:Hnorm; [intros H; discriminate H|].
  unfold createForm.
  destruct (lookup_entry "formId" es) as [| | | |formId| |] eqn:Hfid;
    try (intros H; discriminate H).
  destruct (negb (truthy (Str formId)) || bool_decide (trim formId = ""));
    [intros H; discriminate H|].
  intros [= <-] Hnow. unfold getForm.
  rewrite (stored_document_valid _ _ _ _ _ Hnorm).
  rewrite (all_storable_false fs 0 i f Hi).
  - by rewrite andb_false_r.
  - unfold storable_field. by rewrite (bool_decide_false _ Hid).
Qed.

Lemma stored_form_unreadable_witness :
  ∃ doc,
    store_form no_trim sevens sample_now = inr doc
    ∧ getForm (Some (Obj Plain doc)) = Some None.
Proof.
  eexists. split; [reflexivity|].
  apply (stored_form_unreadable no_trim sevens sample_now [raw_name; raw_seven] _
           1 raw_seven).
  - reflexivity.
  - reflexivity.
  - discriminate.
  - reflexivity.
  - reflexivity.
Defined.


(** What one successful normalisation returns. *)
Lemma normalize_field_inr i f nf :
  normalize_field i f = inr nf →
  get nf "id" = get f "id"
  ∧ get nf "type" = get f "type"
  ∧ get nf "label" = get f "label"
  ∧ get nf "placeholder" = get f "placeholder"
  ∧ get nf "options" = get f "options"
  ∧ get nf "required" = nullish_or (get f "required") (Bool false)
  ∧ get nf "order"
    = nullish_or (get f "order") (Num (inject_Z (Z.of_nat (i + 1))))
  ∧ includes field_types (get nf "type") = true
  ∧ (if is_string "dynamic" (get nf "type")
     then ∃ nested nested',
            get f "fields" = Arr nested
            ∧ get nf "fields" = Arr nested'
            ∧ map_throwing (λ _, normalize_nested (get f "id")) 0 nested = inr nested'
     else get nf "fields" = Undefined).
Proof.
  unfold normalize_field.
  destruct f as [| | | | | |c es]; try (cbn; intros H; discriminate H).
  cbn [read]. rewrite !get_obj.
  destruct (negb (truthy (lookup_entry "id" es)) || _ || _); [intros H; discriminate H|].
  destruct (includes field_types (lookup_entry "type" es)) eqn:Htype;
    [|intros H; discriminate H].
  cbn [negb].
  destruct (is_string "dynamic" (lookup_entry "type" es)) eqn:Hdyn.
  - destruct (lookup_entry "fields" es) as [| | | | |nested|] eqn:Hfields;
      try (intros H; discriminate H).
    destruct (map_throwing (λ _, normalize_nested (lookup_entry "id" es)) 0 nested)
      as [e|nested'] eqn:Hnested; [intros H; discriminate H|].
    intros [= <-]. rewrite !get_obj. cbn [app]. lookups.
    rewrite Htype, Hdyn. repeat (split; [done|]). by exists nested, nested'.
  - intros [= <-]. rewrite !get_obj. lookups.
    rewrite Htype, Hdyn. repeat (split; [done|]). done.
Qed.

Lemma normalize_nested_inr parent n n' :
  normalize_nested parent n = inr n' →
  includes nested_types (get n' "type") = true
  ∧ get n' "fields" = Undefined.
Proof.
  unfold normalize_nested.
  destruct n as [| | | | | |c es]; try (cbn; intros H; discriminate H).
  cbn [read]. rewrite !get_obj.
  destruct (negb (truthy (lookup_entry "id" es)) || _ || _); [intros H; discriminate H|].
  destruct (includes nested_types (lookup_entry "type" es)) eqn:Htype;
    [|intros H; discriminate H].
  cbn [negb]. intros [= <-]. rewrite !get_obj. lookups. by rewrite Htype.
Qed.

(** X29. A successful normalisation returns one field per raw field, in
    order, with id, type, label, placeholder and options copied, [required]
    defaulting to [false] and [order] to the 1-based position when they are
    absent or null. *)
Theorem normalized_fields_defaults fs nfs :
  normalize_fields fs = inr nfs →
  length nfs = length fs
  ∧ ∀ i f, fs !! i = Some f →
      ∃ nf, nfs !! i = Some nf
        ∧ get nf "id" = get f "id"
        ∧ get nf "type" = get f "type"
        ∧ get nf "label" = get f "label"
        ∧ get nf "placeholder" = get f "placeholder"
        ∧ get nf "options" = get f "options"
        ∧ get nf "required" = nullish_or (get f "required") (Bool false)
        ∧ get nf "order"
          = nullish_or (get f "order") (Num (inject_Z (Z.of_nat (i + 1)))).
Proof.
  intros Hnorm.
  destruct (map_throwing_inr normalize_field fs 0 nfs Hnorm) as [Hlen Hget].
  split; [done|]. intros i f Hi.
  destruct (Hget i f Hi) as (nf & Hnf & Hf). exists nf. split; [done|].
  destruct (normalize_field_inr _ _ _ Hf) as (? & ? & ? & ? & ? & ? & ? & _).
  done.
Qed.

Lemma normalized_fields_defaults_witness :
  ∃ nfs,
    normalize_fields [raw_name; raw_members] = inr nfs
    ∧ length nfs = 2
    ∧ ∃ nf, nfs !! 1 = Some nf ∧ get nf "order" = Num 2 ∧ get nf "required" = Bool false.
Proof.
  eexists. split; [reflexivity|].
  destruct (normalized_fields_defaults [raw_name; raw_members] _ eq_refl)
    as [Hlen Hget].
  split; [exact Hlen|].
  destruct (Hget 1 raw_members eq_refl) as (nf & Hnf & _ & _ & _ & _ & _ & Hreq & Hord).
  exists nf. split; [exact Hnf|]. split; [exact Hord | exact Hreq].
Defined.

(** X30. After a successful normalisation every field has one of the five
    types, only a group has [fields], and the children of a group have one
    of the four scalar types and no [fields] of their own: there is no
    group inside a group. *)
Theorem normalized_one_level fs nfs nf :
  normalize_fields fs = inr nfs →
  nf ∈ nfs →
  includes field_types (get nf "type") = true
  ∧ (if is_string "dynamic" (get nf "type")
     then ∃ children,
            get nf "fields" = Arr children
            ∧ ∀ child, child ∈ children →
                includes nested_types (get child "type") = true
                ∧ get child "fields" = Undefined
     else get nf "fields" = Undefined).
Proof.
  intros Hnorm Hin.
  destruct (map_throwing_elem normalize_field fs 0 nfs nf Hnorm Hin)
    as (i & f & Hi & Hf).
  destruct (normalize_field_inr _ _ _ Hf) as (_ & _ & _ & _ & _ & _ & _ & Hty & Hfields).
  split; [done|].
  destruct (is_string "dynamic" (get nf "type")); [|done].
  destruct Hfields as (nested & nested' & _ & Hnf & Hmap).
  exists nested'. split; [done|]. intros child Hchild.
  destruct (map_throwing_elem _ nested 0 nested' child Hmap Hchild)
    as (j & n & _ & Hn).
  by apply (normalize_nested_inr _ _ _ Hn).
Qed.

Lemma normalized_one_level_witness :
  ∃ nfs nf,
    normalize_fields [raw_name; raw_members] = inr nfs
    ∧ nfs !! 1 = Some nf
    ∧ includes field_types (get nf "type") = true.
Proof.
  eexists _, _. split; [reflexivity|]. split; [reflexivity|].
  refine (proj1 (normalized_one_level [raw_name; raw_members] _ _ eq_refl _)).
  right. left.
Defined.

End FirestoreSpec.
